(** * Flight booking: the booking transaction of [flask_backend.py] and
      [flightmanagementsystem.py]

    The two booking entry points of the repository, the HTTP view [book]
    and the Gradio callback [book_ticket], are embedded as programs over
    the storage statements they issue.  The programs are written once and
    interpreted twice: sequentially (one call runs to completion against
    the database) and interleaved (several calls take turns, statement by
    statement, under row locks). *)

From Stdlib Require Import ZArith QArith String List.
From stdpp Require Import base tactics option list gmap strings pretty.

Local Open Scope string_scope.
Local Open Scope list_scope.
Local Open Scope Z_scope.

(** ** Python values *)

(** A Python float: a finite number, kept as the rational it denotes (the
    booking code converts and stores prices and never computes with them),
    an infinity or a NaN.  The JSON decoder of the view accepts [Infinity]
    and [NaN], and [float] gives them for the strings that spell them. *)
Inductive pyfloat := Finite (q : Q) | Infinite (negative : bool) | NaN.
Coercion Finite : Q >-> pyfloat.

(** [float(z)] on an integer: the nearest double, ties to even, and [None]
    where Python raises [OverflowError] because the rounded value is past
    the largest double.  An integer of at most 53 bits is its own double;
    a longer one keeps its 53 leading bits, rounded. *)
Definition float_of_int (z : Z) : option Q :=
  let a := Z.abs z in
  let e := Z.log2 a - 52 in
  if e <=? 0 then Some (inject_Z z)
  else
    let m := Z.shiftr a e in
    let r := a - Z.shiftl m e in
    let half := Z.shiftl 1 (e - 1) in
    let m' := if (half <? r) || ((r =? half) && Z.odd m) then m + 1 else m in
    let n := Z.shiftl m' e in
    if 2 ^ 1024 <=? n then None else Some (inject_Z (Z.sgn z * n)).

(** The values a JSON payload or a Gradio component can hand to the
    handlers.  A dict is an association list read by first match. *)
#[warnings="-register-all"]
Inductive pyval :=
| PNone
| PBool (b : bool)
| PInt (z : Z)
| PFloat (x : pyfloat)
| PStr (s : string)
| PList (l : list pyval)
| PDict (d : list (string * pyval)).
Arguments PFloat x%_Q.

Inductive op :=
| OpConnect | OpInsertPassenger | OpSelectSeats | OpInsertReservation
| OpUpdateSeats | OpCommit | OpRollback.

Inductive exn :=
| AttributeError          (* [.get] on a value that is not a dict *)
| TypeError               (* [float(None)], [int([])], ... *)
| ValueError              (* [float("abc")] *)
| OverflowError           (* [float(10**400)], [int(float("inf"))] *)
| ProgrammingError        (* a parameter the connector cannot convert *)
| InterfaceError          (* a statement on a closed connection *)
| DatabaseError (o : op). (* the storage failed at operation [o] *)

(** Python truthiness: [if v], [not v]. *)
Definition truthy (v : pyval) : bool :=
  match v with
  | PNone => false
  | PBool b => b
  | PInt z => negb (z =? 0)
  | PFloat (Finite q) => negb (Qnum q =? 0)
  | PFloat _ => true
  | PStr s => match s with EmptyString => false | _ => true end
  | PList l => match l with [] => false | _ => true end
  | PDict d => match d with [] => false | _ => true end
  end.

Fixpoint dict_find (d : list (string * pyval)) (key : string) : option pyval :=
  match d with
  | [] => None
  | (k, v) :: d' => if String.eqb k key then Some v else dict_find d' key
  end.

(** [v.get(key, default)]: defined on dicts only. *)
Definition py_get (v : pyval) (key : string) (dflt : pyval) : exn + pyval :=
  match v with
  | PDict d => inr (default dflt (dict_find d key))
  | _ => inl AttributeError
  end.

(** ** Stored values and rows *)

(** What the connector sends for a Python parameter.  Lists and dicts have
    no conversion, and a float that is not finite has no literal the
    server takes: the statement ends in a [ProgrammingError]. *)
Inductive sqlval := SNull | SInt (z : Z) | SNum (q : Q) | SStr (s : string).

Definition to_mysql (v : pyval) : option sqlval :=
  match v with
  | PNone => Some SNull
  | PBool b => Some (SInt (Z.b2z b))
  | PInt z => Some (SInt z)
  | PFloat (Finite q) => Some (SNum q)
  | PFloat _ => None
  | PStr s => Some (SStr s)
  | PList _ | PDict _ => None
  end.

Record passenger := {
  passenger_id : Z;
  full_name : sqlval;
  age : sqlval;
  gender : sqlval;
  email : sqlval }.

(** A row of [flights] without its key [flight_id], which indexes the
    table. *)
Record flight := {
  flight_number : string;
  airline_id : option Z;
  departure_airport : string;
  arrival_airport : string;
  departure_datetime : string;
  seats_available : Z }.

Record reservation := {
  reservation_id : Z;
  r_flight_id : sqlval;
  r_passenger_id : sqlval;
  seat_number : sqlval;
  travel_class : sqlval;
  price : sqlval }.

Record tables := {
  passengers : list passenger;
  flights : gmap Z flight;
  reservations : list reservation }.

(** The committed tables and the two AUTO_INCREMENT counters; the counters
    are not transactional (a rolled back insert still uses up its id).
    [text_key] is the server's reading of a text where it expects the
    integer key: the key the text equals as a number, if any.  It belongs
    to the server and its SQL mode, and no statement changes it. *)
Record database := {
  data : tables;
  passenger_seq : Z;
  reservation_seq : Z;
  text_key : string → option Z }.

(** The key a bound parameter equals in [WHERE flight_id = %s], where
    [flight_id] is the integer key of [flights].  The server compares
    numbers: an integer parameter equals its own value, a decimal one the
    integer it denotes (42.0 is 42, 42.5 is no key), a text is read by
    [text_key], and NULL equals nothing. *)
Definition key_of (tk : string → option Z) (s : sqlval) : option Z :=
  match s with
  | SNull => None
  | SInt z => Some z
  | SNum q =>
      if Qnum q mod Z.pos (Qden q) =? 0 then Some (Qnum q / Z.pos (Qden q))
      else None
  | SStr t => tk t
  end.

(** The key a Python parameter selects, when the connector can send it. *)
Definition flight_key (tk : string → option Z) (v : pyval) : option Z :=
  to_mysql v ≫= key_of tk.

(** What the integer column [flight_id] of [reservations] holds after an
    insert of [s]: the key [s] reads as.  A parameter that reads as no key
    is kept as sent; the handlers insert a reservation only for a
    parameter that their select has just matched with a flight. *)
Definition key_column (tk : string → option Z) (s : sqlval) : sqlval :=
  match key_of tk s with Some k => SInt k | None => s end.

Definition take_seat (f : flight) : flight :=
  {| flight_number := flight_number f;
     airline_id := airline_id f;
     departure_airport := departure_airport f;
     arrival_airport := arrival_airport f;
     departure_datetime := departure_datetime f;
     seats_available := seats_available f - 1 |}.

(** ** Statements and programs *)

Inductive cmd :=
| Connect
| InsertPassenger (name age gender email : pyval)
| SelectSeats (flight_id : pyval) (for_update : bool)
| InsertReservation (flight_id passenger_id seat travel_class price : pyval)
| UpdateSeats (flight_id : pyval)
| Commit
| Rollback
| Close.

(** What a statement gives back to the program: the inserts and the update
    give the [lastrowid] the cursor shows after them (the generated id for
    an insert, 0 for the update, which generates none); the select gives
    [fetchone()], the seat count of the row or [None]. *)
Definition reply (c : cmd) : Type :=
  match c with
  | InsertPassenger _ _ _ _ => Z
  | InsertReservation _ _ _ _ _ => Z
  | UpdateSeats _ => Z
  | SelectSeats _ _ => option Z
  | Connect | Commit | Rollback | Close => unit
  end.

Inductive prog (R : Type) :=
| Ret (r : R)
| Raise (e : exn)
| Do (c : cmd) (k : exn + reply c → prog R).
Arguments Ret {R} r.
Arguments Raise {R} e.
Arguments Do {R} c k.

Fixpoint bind {A B} (p : prog A) (f : A → prog B) : prog B :=
  match p with
  | Ret a => f a
  | Raise e => Raise e
  | Do c k => Do c (λ r, bind (k r) f)
  end.

(** [try: p except Exception as e: h e], for a [try] whose body ends the
    function. *)
Fixpoint catch {R} (p : prog R) (h : exn → prog R) : prog R :=
  match p with
  | Ret r => Ret r
  | Raise e => h e
  | Do c k => Do c (λ r, catch (k r) h)
  end.

Definition issue (c : cmd) : prog (reply c) :=
  Do c (λ r, match r with inl e => Raise e | inr a => Ret a end).

Definition lift {A} (r : exn + A) : prog A :=
  match r with inl e => Raise e | inr a => Ret a end.

Declare Scope prog_scope.
Notation "x ← p ; q" := (bind p (λ x, q))
  (at level 20, p at level 100, q at level 200, only parsing) : prog_scope.
Notation "p ;; q" := (bind p (λ _, q))
  (at level 100, q at level 200, right associativity, only parsing) : prog_scope.
Delimit Scope prog_scope with prog.
Bind Scope prog_scope with prog.

(** ** Sequential execution *)

Definition passenger_row (id : Z) (name age gender email : pyval) : option passenger :=
  n ← to_mysql name; a ← to_mysql age; g ← to_mysql gender; e ← to_mysql email;
  Some {| passenger_id := id; full_name := n; age := a; gender := g; email := e |}.

Definition reservation_row (tk : string → option Z) (id : Z)
    (flight_id passenger_id seat class price : pyval) : option reservation :=
  f ← to_mysql flight_id; p ← to_mysql passenger_id; s ← to_mysql seat;
  c ← to_mysql class; pr ← to_mysql price;
  Some {| reservation_id := id; r_flight_id := key_column tk f; r_passenger_id := p;
          seat_number := s; travel_class := c; price := pr |}.

Definition add_passenger (row : passenger) (t : tables) : tables :=
  {| passengers := passengers t ++ [row]; flights := flights t;
     reservations := reservations t |}.

Definition add_reservation (row : reservation) (t : tables) : tables :=
  {| passengers := passengers t; flights := flights t;
     reservations := reservations t ++ [row] |}.

(** [SELECT seats_available FROM flights WHERE flight_id = %s], then
    [fetchone()], for a parameter that equals key [key]. *)
Definition seats_row (t : tables) (key : option Z) : option Z :=
  k ← key; fl ← flights t !! k; Some (seats_available fl).

(** [UPDATE flights SET seats_available = seats_available - 1 WHERE
    flight_id = %s], for a parameter that equals key [key]. *)
Definition decrement (key : option Z) (t : tables) : tables :=
  match key with
  | Some k => {| passengers := passengers t;
                 flights := alter take_seat k (flights t);
                 reservations := reservations t |}
  | None => t
  end.

Definition next_passenger (d : database) : database :=
  {| data := data d; passenger_seq := passenger_seq d + 1;
     reservation_seq := reservation_seq d; text_key := text_key d |}.

Definition next_reservation (d : database) : database :=
  {| data := data d; passenger_seq := passenger_seq d;
     reservation_seq := reservation_seq d + 1; text_key := text_key d |}.

Definition publish (t : tables) (d : database) : database :=
  {| data := t; passenger_seq := passenger_seq d;
     reservation_seq := reservation_seq d; text_key := text_key d |}.

(** One call at a time: the database, the connection of the running call
    (its working copy of the tables, absent when closed) and the statements
    completed so far. *)
Record world := {
  db : database;
  cnx : option tables;
  log : list cmd }.

Definition logged (c : cmd) (d : database) (s : option tables) (w : world) : world :=
  {| db := d; cnx := s; log := log w ++ [c] |}.

(** One statement.  [f o] tells whether the storage fails at operation
    [o] during this call; a failing statement changes nothing.  [close()]
    never raises. *)
Definition exec (f : op → bool) (c : cmd) (w : world) : world * (exn + reply c) :=
  match c return world * (exn + reply c) with
  | Connect =>
      if f OpConnect then (w, inl (DatabaseError OpConnect))
      else (logged Connect (db w) (Some (data (db w))) w, inr ())
  | InsertPassenger n a g e =>
      match cnx w with
      | None => (w, inl InterfaceError)
      | Some t =>
          match passenger_row (passenger_seq (db w)) n a g e with
          | None => (w, inl ProgrammingError)
          | Some row =>
              if f OpInsertPassenger then (w, inl (DatabaseError OpInsertPassenger))
              else (logged (InsertPassenger n a g e) (next_passenger (db w))
                           (Some (add_passenger row t)) w,
                    inr (passenger_id row))
          end
      end
  | SelectSeats fid lock =>
      match cnx w with
      | None => (w, inl InterfaceError)
      | Some t =>
          match to_mysql fid with
          | None => (w, inl ProgrammingError)
          | Some s =>
              if f OpSelectSeats then (w, inl (DatabaseError OpSelectSeats))
              else (logged (SelectSeats fid lock) (db w) (Some t) w,
                    inr (seats_row t (key_of (text_key (db w)) s)))
          end
      end
  | InsertReservation fid pid seat class pr =>
      match cnx w with
      | None => (w, inl InterfaceError)
      | Some t =>
          match reservation_row (text_key (db w)) (reservation_seq (db w))
                                fid pid seat class pr with
          | None => (w, inl ProgrammingError)
          | Some row =>
              if f OpInsertReservation then (w, inl (DatabaseError OpInsertReservation))
              else (logged (InsertReservation fid pid seat class pr)
                           (next_reservation (db w))
                           (Some (add_reservation row t)) w,
                    inr (reservation_id row))
          end
      end
  | UpdateSeats fid =>
      match cnx w with
      | None => (w, inl InterfaceError)
      | Some t =>
          match to_mysql fid with
          | None => (w, inl ProgrammingError)
          | Some s =>
              if f OpUpdateSeats then (w, inl (DatabaseError OpUpdateSeats))
              else (logged (UpdateSeats fid) (db w)
                           (Some (decrement (key_of (text_key (db w)) s) t)) w,
                    inr 0)
          end
      end
  | Commit =>
      match cnx w with
      | None => (w, inl InterfaceError)
      | Some t =>
          if f OpCommit then (w, inl (DatabaseError OpCommit))
          else (logged Commit (publish t (db w)) (Some t) w, inr ())
      end
  | Rollback =>
      match cnx w with
      | None => (w, inl InterfaceError)
      | Some t =>
          if f OpRollback then (w, inl (DatabaseError OpRollback))
          else (logged Rollback (db w) (Some (data (db w))) w, inr ())
      end
  | Close => (logged Close (db w) None w, inr ())
  end.

Fixpoint run {R} (f : op → bool) (p : prog R) (w : world) : world * (exn + R) :=
  match p with
  | Ret r => (w, inr r)
  | Raise e => (w, inl e)
  | Do c k => let '(w', a) := exec f c w in run f (k a) w'
  end.

(** ** The handlers *)

(** [jsonify] bodies: a field is a literal or [str(e)] of the exception
    caught. *)
Inductive body_val := Lit (s : string) | StrOf (e : exn).

Inductive response := Json (status : Z) (body : list (string * body_val)).

(** The four messages of [book_ticket]. *)
Inductive ticket_result :=
| FlightNotFound (flight_id : pyval) (* "Flight id {flight_id} not found." *)
| NoSeats                            (* "No seats available." *)
| Booked (lastrowid : Z)             (* "Booking successful! Reservation ID: {lastrowid}" *)
| Error (e : exn).                   (* "Error: {e}" *)

Section Handlers.

(** [float(s)] and [int(s)] on strings are the interpreter's: the float
    or the integer the string spells, [None] where they raise
    [ValueError]. *)
Variable float_of_str : string → option pyfloat.
Variable int_of_str : string → option Z.

Definition py_float (v : pyval) : exn + pyfloat :=
  match v with
  | PNone => inl TypeError
  | PBool b => inr (Finite (inject_Z (Z.b2z b)))
  | PInt z =>
      match float_of_int z with
      | Some q => inr (Finite q)
      | None => inl OverflowError
      end
  | PFloat x => inr x
  | PStr s => match float_of_str s with Some x => inr x | None => inl ValueError end
  | PList _ | PDict _ => inl TypeError
  end.

Definition py_int (v : pyval) : exn + Z :=
  match v with
  | PNone => inl TypeError
  | PBool b => inr (Z.b2z b)
  | PInt z => inr z
  | PFloat (Finite q) => inr (Z.quot (Qnum q) (Z.pos (Qden q)))
  | PFloat (Infinite _) => inl OverflowError
  | PFloat NaN => inl ValueError
  | PStr s => match int_of_str s with Some z => inr z | None => inl ValueError end
  | PList _ | PDict _ => inl TypeError
  end.

(** [flask_backend.py], [book], with [payload = request.json]. *)
Definition book (payload : pyval) : prog response :=
  (p ← lift (py_get payload "passenger" (PDict []));
   flight_id ← lift (py_get payload "flight_id" PNone);
   seat_number ← lift (py_get payload "seat_number" PNone);
   travel_class ← lift (py_get payload "travel_class" (PStr "Economy"));
   price_field ← lift (py_get payload "price" (PFloat 0));
   price ← lift (py_float price_field);
   name ← lift (py_get p "full_name" PNone);
   if negb (truthy name) || negb (truthy flight_id)
   then Ret (Json 400 [("error", Lit "missing passenger name or flight_id")])
   else
     issue Connect;;
     catch
       (full_name ← lift (py_get p "full_name" PNone);
        age ← lift (py_get p "age" PNone);
        gender ← lift (py_get p "gender" PNone);
        email ← lift (py_get p "email" PNone);
        passenger_id ← issue (InsertPassenger full_name age gender email);
        res ← issue (SelectSeats flight_id true);
        match res with
        | None =>
            issue Rollback;; issue Close;;
            Ret (Json 404 [("error", Lit "flight not found")])
        | Some seats =>
            if seats <=? 0
            then issue Rollback;; issue Close;;
                 Ret (Json 400 [("error", Lit "no seats available")])
            else
              issue (InsertReservation flight_id (PInt passenger_id) seat_number
                                      travel_class (PFloat price));;
              issue (UpdateSeats flight_id);;
              issue Commit;;
              issue Close;;
              Ret (Json 200 [("status", Lit "booked")])
        end)
       (λ e, issue Rollback;; issue Close;;
             Ret (Json 500 [("error", StrOf e)])))%prog.

(** [flightmanagementsystem.py], [book_ticket]. *)
Definition book_ticket
    (passenger_name age gender email flight_id seat_number travel_class price : pyval)
  : prog ticket_result :=
  catch
    (issue Connect;;
     age_param ← (if truthy age then z ← lift (py_int age); Ret (PInt z)
                  else Ret PNone);
     passenger_id ← issue (InsertPassenger passenger_name age_param gender email);
     res ← issue (SelectSeats flight_id false);
     match res with
     | None => issue Rollback;; issue Close;; Ret (FlightNotFound flight_id)
     | Some seats_available =>
         if seats_available <=? 0
         then issue Rollback;; issue Close;; Ret NoSeats
         else
           price_param ← (if truthy price then lift (py_float price)
                          else Ret (Finite 0));
           issue (InsertReservation flight_id (PInt passenger_id) seat_number
                                   travel_class (PFloat price_param));;
           lastrowid ← issue (UpdateSeats flight_id);
           issue Commit;;
           issue Close;;
           Ret (Booked lastrowid)
     end)%prog
    (λ e, Ret (Error e)).

End Handlers.

(** ** Calls against a database *)

Inductive call :=
| HttpBook (payload : pyval)
| UiBook (passenger_name age gender email flight_id seat_number travel_class
          price : pyval).

(** What the caller sees: the view's JSON response, or the exception that
    leaves the view; the callback's message. *)
Inductive outcome :=
| Http (r : exn + response)
| Ui (r : exn + ticket_result).

Section Serving.

Variable float_of_str : string → option pyfloat.
Variable int_of_str : string → option Z.

Definition fresh (d : database) : world := {| db := d; cnx := None; log := [] |}.

(** One call, from a fresh connection to the return of the handler; a
    connection left open is dropped with its uncommitted work. *)
Definition serve (f : op → bool) (c : call) (d : database) : world * outcome :=
  match c with
  | HttpBook payload =>
      let '(w, r) := run f (book float_of_str payload) (fresh d) in (w, Http r)
  | UiBook n a g e fid seat class pr =>
      let '(w, r) := run f (book_ticket float_of_str int_of_str n a g e fid seat class pr)
                         (fresh d) in
      (w, Ui r)
  end.

Definition after (f : op → bool) (c : call) (d : database) : database :=
  db (fst (serve f c d)).

(** A sequence of calls, each with the storage failures it meets. *)
Fixpoint serve_all (cs : list ((op → bool) * call)) (d : database) : database :=
  match cs with
  | [] => d
  | (f, c) :: cs' => serve_all cs' (after f c d)
  end.

(** The call reports a booking. *)
Definition succeeded (o : outcome) : bool :=
  match o with
  | Http (inr (Json 200 _)) => true
  | Ui (inr (Booked _)) => true
  | _ => false
  end.

(** The parameter bound to [flight_id] by the call. *)
Definition requested (c : call) : exn + pyval :=
  match c with
  | HttpBook payload => py_get payload "flight_id" PNone
  | UiBook _ _ _ _ fid _ _ _ => inr fid
  end.

(** The price expression of the call: line 58 of [book], the last
    parameter of the reservation insert of [book_ticket]. *)
Definition charged (c : call) : exn + pyfloat :=
  match c with
  | HttpBook payload =>
      match py_get payload "price" (PFloat 0) with
      | inl e => inl e
      | inr v => py_float float_of_str v
      end
  | UiBook _ _ _ _ _ _ _ pr =>
      if truthy pr then py_float float_of_str pr else inr (Finite 0)
  end.

End Serving.

(** ** What a call can have done *)

(** The tables after a booking of flight [k]: one passenger, one
    reservation, one seat less on [k]. *)
Definition booked (k : Z) (pa : passenger) (re : reservation) (t : tables) : tables :=
  {| passengers := passengers t ++ [pa];
     flights := alter take_seat k (flights t);
     reservations := reservations t ++ [re] |}.

(** The success returns: line 82 of [book], line 74 of [book_ticket]
    (whose [cur.lastrowid] is read after the UPDATE). *)
Definition confirms (c : call) (o : outcome) : Prop :=
  match c with
  | HttpBook _ => o = Http (inr (Json 200 [("status", Lit "booked")]))
  | UiBook _ _ _ _ _ _ _ _ => o = Ui (inr (Booked 0))
  end.

(** Either nothing is committed, or exactly one booking is. *)
Inductive summary (ff : string → option pyfloat) (d : database) (c : call)
    (w : world) (o : outcome) : Prop :=
| Unchanged :
    data (db w) = data d →
    Commit ∉ log w →
    succeeded o = false →
    summary ff d c w o
| Committed v k fl pa re q :
    requested c = inr v →
    flight_key (text_key d) v = Some k →
    flights (data d) !! k = Some fl →
    0 < seats_available fl →
    data (db w) = booked k pa re (data d) →
    passenger_id pa = passenger_seq d →
    reservation_id re = reservation_seq d →
    r_flight_id re = SInt k →
    charged ff c = inr (Finite q) →
    price re = SNum q →
    Commit ∈ log w →
    confirms c o →
    summary ff d c w o.

(** ** The vocabulary of the properties *)

(** The reservations that reference flight [k]. *)
Definition refers_to (k : Z) (r : reservation) : bool :=
  match r_flight_id r with SInt z => z =? k | _ => false end.

Definition booked_on (k : Z) (t : tables) : Z :=
  Z.of_nat (length (List.filter (refers_to k) (reservations t))).

(** [cap k] seats were on sale on flight [k]: what is left plus what is
    reserved. *)
Definition conserved (cap : Z → Z) (t : tables) : Prop :=
  ∀ k fl, flights t !! k = Some fl → seats_available fl + booked_on k t = cap k.

Definition capacity (t : tables) (k : Z) : Z :=
  from_option seats_available 0 (flights t !! k).

Definition nonneg (t : tables) : Prop :=
  ∀ k fl, flights t !! k = Some fl → 0 ≤ seats_available fl.

(** The row [WHERE flight_id = v] selects in the committed tables. *)
Definition find_flight (d : database) (v : pyval) : option flight :=
  k ← flight_key (text_key d) v; flights (data d) !! k.

(** The two refusals of the seat check, as each handler returns them. *)
Definition not_found (c : call) : outcome :=
  match c with
  | HttpBook _ => Http (inr (Json 404 [("error", Lit "flight not found")]))
  | UiBook _ _ _ _ fid _ _ _ => Ui (inr (FlightNotFound fid))
  end.

Definition sold_out (c : call) : outcome :=
  match c with
  | HttpBook _ => Http (inr (Json 400 [("error", Lit "no seats available")]))
  | UiBook _ _ _ _ _ _ _ _ => Ui (inr NoSeats)
  end.

Definition validation_error : outcome :=
  Http (inr (Json 400 [("error", Lit "missing passenger name or flight_id")])).

(** The outcome shows the identifier [rid]: as a field of the JSON body,
    or as the number of the success message. *)
Definition carries (rid : Z) (o : outcome) : Prop :=
  match o with
  | Http (inr (Json _ body)) => ∃ key, (key, Lit (pretty rid)) ∈ body
  | Ui (inr (Booked n)) => n = rid
  | _ => False
  end.

(** Only the seat counter differs. *)
Definition same_but_seats (fl fl' : flight) : Prop :=
  flight_number fl' = flight_number fl ∧ airline_id fl' = airline_id fl
  ∧ departure_airport fl' = departure_airport fl
  ∧ arrival_airport fl' = arrival_airport fl
  ∧ departure_datetime fl' = departure_datetime fl.

(** The price of a call as the handlers take it: 0 when it is left out
    (no [price] key in the payload; a falsy [price] argument of the
    callback), else its conversion by [float], whatever its sign. *)
Definition price_rule (ff : string → option pyfloat) (c : call) (q : Q) : Prop :=
  match c with
  | HttpBook (PDict dct) =>
      match dict_find dct "price" with
      | None => q = 0%Q
      | Some v => py_float ff v = inr (Finite q)
      end
  | HttpBook _ => False
  | UiBook _ _ _ _ _ _ _ pr =>
      if truthy pr then py_float ff pr = inr (Finite q) else q = 0%Q
  end.

(** ** Concrete databases and calls *)

Definition no_fault : op → bool := λ _, false.

Definition fail_at (o : op) : op → bool :=
  λ o', match o, o' with
        | OpConnect, OpConnect | OpInsertPassenger, OpInsertPassenger
        | OpSelectSeats, OpSelectSeats | OpInsertReservation, OpInsertReservation
        | OpUpdateSeats, OpUpdateSeats | OpCommit, OpCommit
        | OpRollback, OpRollback => true
        | _, _ => false
        end.

(** String parsers for the examples, none of which passes a string where
    Python reads a number. *)
Definition no_float : string → option pyfloat := λ _, None.
Definition no_int : string → option Z := λ _, None.

(** The server of the examples reads a text of decimal digits as the
    number it spells, as every SQL mode does; the examples bind no other
    text where a key is expected. *)
Fixpoint digits (s : string) (acc : Z) : option Z :=
  match s with
  | EmptyString => Some acc
  | String c s' =>
      let n := Z.of_nat (Ascii.nat_of_ascii c) - 48 in
      if (0 <=? n) && (n <=? 9) then digits s' (10 * acc + n) else None
  end.

Definition decimal_text (s : string) : option Z :=
  match s with EmptyString => None | _ => digits s 0 end.

Definition a_flight (seats : Z) : flight :=
  {| flight_number := "AI101"; airline_id := Some 1; departure_airport := "DEL";
     arrival_airport := "BOM"; departure_datetime := "2025-01-01 10:00:00";
     seats_available := seats |}.

Definition one_flight (k seats : Z) : database :=
  {| data := {| passengers := []; flights := {[ k := a_flight seats ]};
                reservations := [] |};
     passenger_seq := 1; reservation_seq := 1; text_key := decimal_text |}.

(** The booking of the spec's scenario: Jane Doe, flight 42, seat 12A,
    Business, 150.00. *)
Definition jane (pr : pyval) : pyval :=
  PDict [("passenger", PDict [("full_name", PStr "Jane Doe")]);
         ("flight_id", PInt 42); ("seat_number", PStr "12A");
         ("travel_class", PStr "Business"); ("price", pr)].

(** A payload with the two required fields only, the [flight_id] sent as
    [fid]. *)
Definition jo (fid : pyval) : pyval :=
  PDict [("passenger", PDict [("full_name", PStr "Jo")]); ("flight_id", fid)].

Definition nameless (pr : pyval) : pyval :=
  PDict [("passenger", PDict [("full_name", PStr EmptyString)]);
         ("flight_id", PInt 42); ("price", pr)].

Definition jane_ui (fid : pyval) : call :=
  UiBook (PStr "Jane Doe") (PInt 30) (PStr "Female") (PStr "jane@example.com")
         fid (PStr "12A") (PStr "Business") (PFloat 150).

(** ** Interleaved execution *)

(** Calls that run at the same time take turns statement by statement.
    Each has its own transaction: the writes it has issued and not yet
    committed.  The storage is the committed database and the exclusive
    row locks on [flights]; a lock is taken by [SELECT ... FOR UPDATE] and
    by [UPDATE] on the row they select, held until the transaction ends,
    and a statement that needs a row locked by another call waits.  A plain
    [SELECT] takes no lock and reads what is committed at that moment. *)
Inductive write :=
| WPassenger (row : passenger)
| WReservation (row : reservation)
| WSeat (key : option Z).

Definition apply_write (t : tables) (wr : write) : tables :=
  match wr with
  | WPassenger row => add_passenger row t
  | WReservation row => add_reservation row t
  | WSeat key => decrement key t
  end.

Definition apply_writes (ws : list write) (t : tables) : tables :=
  fold_left apply_write ws t.

Record client (R : Type) := {
  code : prog R;              (* what is left of the call *)
  faults : op → bool;         (* the storage failures it meets *)
  txn : option (list write) }.  (* its open transaction, if connected *)
Arguments code {R} _.
Arguments faults {R} _.
Arguments txn {R} _.

Record machine (R : Type) := {
  store : database;
  locks : gmap Z nat;         (* flight row ↦ the client holding its lock *)
  clients : list (client R) }.
Arguments store {R} _.
Arguments locks {R} _.
Arguments clients {R} _.

(** The flight row a statement on parameter [s] locks, if there is one. *)
Definition row_key (d : database) (s : sqlval) : option Z :=
  k ← key_of (text_key d) s; _ ← flights (data d) !! k; Some k.

Definition free_for (i : nat) (lk : gmap Z nat) (k : Z) : bool :=
  match lk !! k with
  | None => true
  | Some j => Nat.eqb j i
  end.

Definition release (i : nat) (lk : gmap Z nat) : gmap Z nat :=
  filter (λ kv, kv.2 ≠ i) lk.

(** The storage and transaction after a statement, with its reply. *)
Record effect (c : cmd) := {
  e_store : database;
  e_locks : gmap Z nat;
  e_txn : option (list write);
  e_reply : exn + reply c }.
Arguments e_store {c} _.
Arguments e_locks {c} _.
Arguments e_txn {c} _.
Arguments e_reply {c} _.

Definition refused {c} (d : database) (lk : gmap Z nat) (tx : option (list write))
    (e : exn) : option (effect c) :=
  Some {| e_store := d; e_locks := lk; e_txn := tx; e_reply := inl e |}.

Definition replied (c : cmd) (d : database) (lk : gmap Z nat)
    (tx : option (list write)) (a : reply c) : option (effect c) :=
  Some {| e_store := d; e_locks := lk; e_txn := tx; e_reply := inr a |}.

(** One statement of client [i]; [None] when it has to wait for a lock. *)
Definition cexec (i : nat) (f : op → bool) (c : cmd)
    (d : database) (lk : gmap Z nat) (tx : option (list write)) : option (effect c) :=
  match c return option (effect c) with
  | Connect =>
      if f OpConnect then refused d lk tx (DatabaseError OpConnect)
      else replied Connect d (release i lk) (Some []) ()
  | InsertPassenger n a g e =>
      match tx with
      | None => refused d lk tx InterfaceError
      | Some ws =>
          match passenger_row (passenger_seq d) n a g e with
          | None => refused d lk tx ProgrammingError
          | Some row =>
              if f OpInsertPassenger
              then refused d lk tx (DatabaseError OpInsertPassenger)
              else replied (InsertPassenger n a g e) (next_passenger d) lk
                           (Some (ws ++ [WPassenger row])) (passenger_id row)
          end
      end
  | SelectSeats fid lock =>
      match tx with
      | None => refused d lk tx InterfaceError
      | Some ws =>
          match to_mysql fid with
          | None => refused d lk tx ProgrammingError
          | Some s =>
              if f OpSelectSeats then refused d lk tx (DatabaseError OpSelectSeats)
              else
                let res := seats_row (apply_writes ws (data d))
                                     (key_of (text_key d) s) in
                match (if lock then row_key d s else None) with
                | None => replied (SelectSeats fid lock) d lk tx res
                | Some k =>
                    if free_for i lk k
                    then replied (SelectSeats fid lock) d (<[k := i]> lk) tx res
                    else None
                end
          end
      end
  | InsertReservation fid pid seat class pr =>
      match tx with
      | None => refused d lk tx InterfaceError
      | Some ws =>
          match reservation_row (text_key d) (reservation_seq d)
                                fid pid seat class pr with
          | None => refused d lk tx ProgrammingError
          | Some row =>
              if f OpInsertReservation
              then refused d lk tx (DatabaseError OpInsertReservation)
              else replied (InsertReservation fid pid seat class pr)
                           (next_reservation d) lk
                           (Some (ws ++ [WReservation row])) (reservation_id row)
          end
      end
  | UpdateSeats fid =>
      match tx with
      | None => refused d lk tx InterfaceError
      | Some ws =>
          match to_mysql fid with
          | None => refused d lk tx ProgrammingError
          | Some s =>
              if f OpUpdateSeats then refused d lk tx (DatabaseError OpUpdateSeats)
              else
                let wr := WSeat (key_of (text_key d) s) in
                match row_key d s with
                | None => replied (UpdateSeats fid) d lk (Some (ws ++ [wr])) 0
                | Some k =>
                    if free_for i lk k
                    then replied (UpdateSeats fid) d (<[k := i]> lk)
                                 (Some (ws ++ [wr])) 0
                    else None
                end
          end
      end
  | Commit =>
      match tx with
      | None => refused d lk tx InterfaceError
      | Some ws =>
          if f OpCommit then refused d lk tx (DatabaseError OpCommit)
          else replied Commit (publish (apply_writes ws (data d)) d)
                       (release i lk) (Some []) ()
      end
  | Rollback =>
      match tx with
      | None => refused d lk tx InterfaceError
      | Some ws =>
          if f OpRollback then refused d lk tx (DatabaseError OpRollback)
          else replied Rollback d (release i lk) (Some []) ()
      end
  | Close =>
      replied Close d (release i lk) None ()
  end.

Definition finished {R} (p : prog R) : bool :=
  match p with Do _ _ => false | _ => true end.

(** Client [i] takes a turn: its next statement, unless it has returned
    or has to wait.  A handler that returns drops its connection, and the
    storage ends that connection's transaction. *)
Definition step {R} (i : nat) (m : machine R) : machine R :=
  match clients m !! i with
  | Some cl =>
      match code cl with
      | Do c k =>
          match cexec i (faults cl) c (store m) (locks m) (txn cl) with
          | Some e =>
              let p := k (e_reply e) in
              {| store := e_store e;
                 locks := if finished p then release i (e_locks e) else e_locks e;
                 clients := <[i := {| code := p; faults := faults cl;
                                      txn := if finished p then None else e_txn e |}]>
                              (clients m) |}
          | None => m
          end
      | _ => m
      end
  | None => m
  end.

Definition run_schedule {R} (sched : list nat) (m : machine R) : machine R :=
  fold_left (λ m i, step i m) sched m.

Definition launch {R} (d : database) (cs : list (prog R * (op → bool))) : machine R :=
  {| store := d; locks := ∅;
     clients := map (λ c, {| code := c.1; faults := c.2; txn := None |}) cs |}.

(** How many clients have returned a booking. *)
Definition returned {R} (ok : R → bool) (m : machine R) : nat :=
  length (List.filter (λ cl, match code cl with Ret r => ok r | _ => false end)
            (clients m)).

Definition is_booked (r : ticket_result) : bool :=
  match r with Booked _ => true | _ => false end.

(** Client [i] holds every lock that is held. *)
Definition mine (i : nat) (lk : gmap Z nat) : Prop :=
  ∀ k j, lk !! k = Some j → j = i.

(** The working copy of a sequential call is the committed tables with
    the pending writes of its transaction applied. *)
Definition agree (w : world) (d : database) (tx : option (list write)) : Prop :=
  db w = d ∧ cnx w = (λ ws, apply_writes ws (data d)) <$> tx.

Definition final {R} (r : exn + R) : prog R :=
  match r with inl e => Raise e | inr a => Ret a end.

(** ** The locking discipline *)

(** Where a transaction stands with respect to one flight row: nothing
    pending on any row; row [k] read under its lock with a positive
    counter; then a reservation for [k] pending; then also the seat taken.
    Only the first, second and last may be committed. *)
Inductive phase := Idle | Holding (k : Z) | Reserved (k : Z) | Taken (k : Z).

(** The phase after a statement and its reply; [None] when the statement
    is out of order.  A statement that fails changes nothing. *)
Definition next_phase (tk : string → option Z) (ph : phase) (c : cmd)
  : exn + reply c → option phase :=
  match c return exn + reply c → option phase with
  | Connect => λ r, match r with inl _ => Some ph | inr _ => Some Idle end
  | InsertPassenger _ _ _ _ => λ _, Some ph
  | SelectSeats fid lock => λ r,
      match r, ph, lock, flight_key tk fid with
      | inr (Some n), Idle, true, Some k =>
          if 0 <? n then Some (Holding k) else Some Idle
      | _, _, _, _ => Some ph
      end
  | InsertReservation fid _ _ _ _ => λ r,
      match r, flight_key tk fid, ph with
      | inl _, _, _ => Some ph
      | inr _, None, _ => Some ph
      | inr _, Some k, Holding k' => if decide (k = k') then Some (Reserved k) else None
      | inr _, Some _, _ => None
      end
  | UpdateSeats fid => λ r,
      match r, flight_key tk fid, ph with
      | inl _, _, _ => Some ph
      | inr _, None, _ => Some ph
      | inr _, Some k, Reserved k' => if decide (k = k') then Some (Taken k) else None
      | inr _, Some _, _ => None
      end
  | Commit => λ r,
      match r, ph with
      | inl _, _ => Some ph
      | inr _, Reserved _ => None
      | inr _, _ => Some Idle
      end
  | Rollback => λ r, match r with inl _ => Some ph | inr _ => Some Idle end
  | Close => λ _, Some Idle
  end.

(** The program keeps the discipline from phase [ph] on, whatever the
    storage replies, on a server that reads texts by [tk]. *)
Fixpoint protocol {R} (tk : string → option Z) (ph : phase) (p : prog R) : Prop :=
  match p with
  | Do c k =>
      ∀ r, match next_phase tk ph c r with
           | Some ph' => protocol tk ph' (k r)
           | None => False
           end
  | _ => True
  end.

(** What the pending writes of a transaction in phase [ph] would do to the
    tables if committed. *)
Definition shape (ph : phase) (ws : list write) : Prop :=
  ∀ t,
    flights (apply_writes ws t)
    = match ph with
      | Taken k => alter take_seat k (flights t)
      | _ => flights t
      end
    ∧ ∀ k', booked_on k' (apply_writes ws t)
            = booked_on k' t
              + match ph with
                | Reserved k | Taken k => if decide (k = k') then 1 else 0
                | _ => 0
                end.

(** Past [Idle], client [i] holds the lock of its row, which has a seat. *)
Definition holds (i : nat) (d : database) (lk : gmap Z nat) (ph : phase) : Prop :=
  match ph with
  | Idle => True
  | Holding k | Reserved k | Taken k =>
      lk !! k = Some i
      ∧ ∃ fl, flights (data d) !! k = Some fl ∧ 0 < seats_available fl
  end.

(** Rows locked by other clients keep their lock and their content. *)
Definition keeps (i : nat) (d : database) (lk : gmap Z nat)
    (d' : database) (lk' : gmap Z nat) : Prop :=
  ∀ j k, j ≠ i → lk !! k = Some j →
    lk' !! k = Some j ∧ flights (data d') !! k = flights (data d) !! k.

Definition client_ok {R} (i : nat) (d : database) (lk : gmap Z nat)
    (cl : client R) : Prop :=
  ∃ ph, protocol (text_key d) ph (code cl) ∧ holds i d lk ph
        ∧ match txn cl with None => ph = Idle | Some ws => shape ph ws end.

Definition safe {R} (cap : Z → Z) (m : machine R) : Prop :=
  conserved cap (data (store m)) ∧ nonneg (data (store m))
  ∧ ∀ i cl, clients m !! i = Some cl → client_ok i (store m) (locks m) cl.

(** Two calls for the last seat of flight 42, through the callback and
    through the view. *)
Definition ui_pair : machine ticket_result :=
  launch (one_flight 42 1)
    [(book_ticket no_float no_int (PStr "Ann") PNone PNone PNone (PInt 42)
                  (PStr "1A") (PStr "Economy") PNone, no_fault);
     (book_ticket no_float no_int (PStr "Bob") PNone PNone PNone (PInt 42)
                  (PStr "1B") (PStr "Economy") PNone, no_fault)].

Definition http_pair : machine response :=
  launch (one_flight 42 1)
    [(book no_float (jane (PFloat 150)), no_fault);
     (book no_float (jane (PFloat 150)), no_fault)].

(** Both calls connect, insert their passenger and read the counter
    before either goes on; then the first finishes, then the second. *)
Definition both_read_first : list nat :=
  [0; 0; 0; 1; 1; 1; 0; 0; 0; 0; 1; 1; 1; 1]%nat.

(** * The rest of the handlers' behaviour *)

(** ** What a booking stores *)

Definition field (d : list (string * pyval)) (key : string) : pyval :=
  default PNone (dict_find d key).

(** The passenger row a call inserts under id [id]: the parameter tuple of
    its INSERT INTO passengers. *)
Definition passenger_of (fi : string → option Z) (c : call) (id : Z) : option passenger :=
  match c with
  | HttpBook (PDict dct) =>
      match default (PDict []) (dict_find dct "passenger") with
      | PDict p =>
          passenger_row id (field p "full_name") (field p "age") (field p "gender")
                        (field p "email")
      | _ => None
      end
  | HttpBook _ => None
  | UiBook name age gender email _ _ _ _ =>
      if truthy age
      then match py_int fi age with
           | inr z => passenger_row id name (PInt z) gender email
           | inl _ => None
           end
      else passenger_row id name PNone gender email
  end.

(** The reservation row a call inserts under id [rid] for passenger [pid]:
    the parameter tuple of its INSERT INTO reservations. *)
Definition reservation_of (tk : string → option Z) (ff : string → option pyfloat)
    (c : call) (rid pid : Z) : option reservation :=
  match c, charged ff c with
  | HttpBook (PDict dct), inr x =>
      reservation_row tk rid (field dct "flight_id") (PInt pid)
                      (field dct "seat_number")
                      (default (PStr "Economy") (dict_find dct "travel_class"))
                      (PFloat x)
  | UiBook _ _ _ _ fid seat cls _, inr x =>
      reservation_row tk rid fid (PInt pid) seat cls (PFloat x)
  | _, _ => None
  end.

(** The database after one booking of flight [k]. *)
Definition sold (k : Z) (pa : passenger) (re : reservation) (d : database) : database :=
  {| data := booked k pa re (data d);
     passenger_seq := passenger_seq d + 1;
     reservation_seq := reservation_seq d + 1;
     text_key := text_key d |}.

(** The call passes the required-field check of its handler; the callback
    has none. *)
Definition validated (c : call) : bool :=
  match c with
  | HttpBook (PDict dct) =>
      match default (PDict []) (dict_find dct "passenger") with
      | PDict p => truthy (field p "full_name") && truthy (field dct "flight_id")
      | _ => false
      end
  | HttpBook _ => false
  | UiBook _ _ _ _ _ _ _ _ => true
  end.

(** The storage fails at none of the six operations of a booking. *)
Definition storage_up (f : op → bool) : Prop :=
  f OpConnect = false ∧ f OpInsertPassenger = false ∧ f OpSelectSeats = false
  ∧ f OpInsertReservation = false ∧ f OpUpdateSeats = false ∧ f OpCommit = false.

(** The key the call asks for: the key its [flight_id] parameter equals
    on the server of [d]. *)
Definition wanted_key (d : database) (c : call) : option Z :=
  match requested c with
  | inr v => flight_key (text_key d) v
  | inl _ => None
  end.

(** The flight the call asks for, in the committed tables. *)
Definition wanted (d : database) (c : call) : option flight :=
  match requested c with
  | inr v => find_flight d v
  | inl _ => None
  end.


(** The travel class of a call as its handler binds it: the view defaults
    a payload without the key to "Economy" and binds a key that is present
    as it is, [null] included; the callback binds its argument as it is. *)
Definition class_rule (c : call) (s : sqlval) : Prop :=
  match c with
  | HttpBook (PDict dct) =>
      match dict_find dct "travel_class" with
      | None => s = SStr "Economy"
      | Some v => to_mysql v = Some s
      end
  | HttpBook _ => False
  | UiBook _ _ _ _ _ _ cls _ => to_mysql cls = Some s
  end.

(** The age of a call as its handler binds it: the view binds the [age] of
    the passenger object as it is; the callback binds [int(age)] when the
    age is truthy and NULL otherwise, so that an age of 0 is stored as
    NULL. *)
Definition age_rule (fi : string → option Z) (c : call) (s : sqlval) : Prop :=
  match c with
  | HttpBook (PDict dct) =>
      match default (PDict []) (dict_find dct "passenger") with
      | PDict p => to_mysql (field p "age") = Some s
      | _ => False
      end
  | HttpBook _ => False
  | UiBook _ age _ _ _ _ _ _ =>
      if truthy age then ∃ z, py_int fi age = inr z ∧ s = SInt z else s = SNull
  end.

(** ** The connection *)

(** How a call leaves its connection: the view has closed it (or never
    opened it) whenever it answers, and the only exception that leaves the
    view with the connection open is a rollback that failed; the callback
    lets no exception out, closes on its three ordinary returns, and on its
    error return leaves open whatever connection it had made. *)
Definition connection_rule (w : world) (o : outcome) : Prop :=
  match o with
  | Http (inr _) => cnx w = None
  | Http (inl e) =>
      (log w = [] ∧ cnx w = None) ∨ (e = DatabaseError OpRollback ∧ is_Some (cnx w))
  | Ui (inr (Error _)) =>
      (log w = [] ∧ cnx w = None) ∨ (Connect ∈ log w ∧ is_Some (cnx w))
  | Ui (inr _) => cnx w = None
  | Ui (inl _) => False
  end.

(** ** Invariants of the tables *)

(** Generated identifiers: every stored id is below its counter, and no
    two passengers, no two reservations share one. *)
Definition keyed (d : database) : Prop :=
  (∀ p, p ∈ passengers (data d) → passenger_id p < passenger_seq d)
  ∧ (∀ r, r ∈ reservations (data d) → reservation_id r < reservation_seq d)
  ∧ NoDup (passenger_id <$> passengers (data d))
  ∧ NoDup (reservation_id <$> reservations (data d)).

(** Every reservation references a stored passenger and a stored flight. *)
Definition referenced (t : tables) : Prop :=
  ∀ r, r ∈ reservations t →
    (∃ p, p ∈ passengers t ∧ r_passenger_id r = SInt (passenger_id p))
    ∧ (∃ k, r_flight_id r = SInt k ∧ is_Some (flights t !! k)).

(** ** The reservations listing *)

(** A row of [reservations()] of [flask_backend.py]: the reservation with
    the passenger's name and the flight's number joined to it. *)
Record reservation_view := {
  v_row : reservation;
  v_passenger_name : sqlval;
  v_flight_number : string }.

(** [JOIN passengers p ON r.passenger_id = p.passenger_id]. *)
Definition joins_passenger (r : reservation) (p : passenger) : bool :=
  match r_passenger_id r with
  | SInt z => z =? passenger_id p
  | _ => false
  end.

(** The rows of the query of [reservations()]: for every reservation, its
    passengers and its flight; a reservation without one of them gives no
    row.  The query has no ORDER BY: the order of the list is the model's,
    not the storage's. *)
Definition reservations_rows (d : database) : list reservation_view :=
  r ← reservations (data d);
  p ← List.filter (joins_passenger r) (passengers (data d));
  match key_of (text_key d) (r_flight_id r) ≫= (λ k, flights (data d) !! k) with
  | Some fl => [{| v_row := r; v_passenger_name := full_name p;
                   v_flight_number := flight_number fl |}]
  | None => []
  end.

(** ** The flight search *)

(** [search_flights] of [flask_backend.py] builds its statement from the
    three query-string arguments. *)
Definition search_select : string :=
  "SELECT f.*, a.name AS airline_name FROM flights f "
  +:+ "LEFT JOIN airlines a ON f.airline_id = a.airline_id WHERE 1=1".

(** [if arg:] on a query-string argument ([request.args.get] gives [None]
    or a string): present and not empty. *)
Definition given (arg : option string) : option string :=
  match arg with
  | Some (String c s) => Some (String c s)
  | _ => None
  end.

(** The statement text and the parameter list handed to [cur.execute]. *)
Definition search_query (frm to date : option string) : string * list string :=
  let query := search_select in
  let params := [] in
  let '(query, params) :=
    match given frm with
    | Some v => (String.append query " AND departure_airport = %s", params ++ [v])
    | None => (query, params)
    end in
  let '(query, params) :=
    match given to with
    | Some v => (String.append query " AND arrival_airport = %s", params ++ [v])
    | None => (query, params)
    end in
  let '(query, params) :=
    match given date with
    | Some v => (String.append query " AND DATE(departure_datetime) = %s", params ++ [v])
    | None => (query, params)
    end in
  (query, params).

(** The number of [%s] markers of a statement, which the connector
    replaces one by one with the parameters. *)
Fixpoint placeholders (s : string) : nat :=
  match s with
  | EmptyString => 0
  | String c s' =>
      match s' with
      | EmptyString => 0
      | String c' s'' =>
          if String.eqb (String c (String c' EmptyString)) "%s"
          then S (placeholders s'')
          else placeholders s'
      end
  end.

(** *** What the statement selects *)

(** The conditions a statement of the search can carry after
    [WHERE 1=1]. *)
Inductive condition := ByDeparture | ByArrival | ByDate.

Definition condition_text (c : condition) : string :=
  match c with
  | ByDeparture => " AND departure_airport = %s"
  | ByArrival => " AND arrival_airport = %s"
  | ByDate => " AND DATE(departure_datetime) = %s"
  end.

Fixpoint drop_string (n : nat) (s : string) : string :=
  match n, s with
  | O, _ => s
  | S n', String _ s' => drop_string n' s'
  | S _, EmptyString => EmptyString
  end.

Definition strip_prefix (p s : string) : option string :=
  if String.prefix p s then Some (drop_string (String.length p) s) else None.

(** Reads the conditions off the text that follows [WHERE 1=1]. *)
Fixpoint read_conditions (fuel : nat) (s : string) : option (list condition) :=
  match s, fuel with
  | EmptyString, _ => Some []
  | _, O => None
  | _, S fuel' =>
      match strip_prefix (condition_text ByDeparture) s with
      | Some rest => cons ByDeparture <$> read_conditions fuel' rest
      | None =>
      match strip_prefix (condition_text ByArrival) s with
      | Some rest => cons ByArrival <$> read_conditions fuel' rest
      | None =>
      match strip_prefix (condition_text ByDate) s with
      | Some rest => cons ByDate <$> read_conditions fuel' rest
      | None => None
      end end end
  end.

Definition read_search (query : string) : option (list condition) :=
  rest ← strip_prefix search_select query;
  read_conditions (String.length rest) rest.

(** A row of the search: the flight with the name of its airline, NULL
    when it has none ([LEFT JOIN airlines]). *)
Record flight_view := {
  f_id : Z;
  f_row : flight;
  f_airline_name : option string }.

Section Search.

(** The storage's comparisons: [=] on the two airport columns under their
    collation, and [DATE(departure_datetime) = %s]. *)
Variable text_eq : string → string → bool.

Variable on_date : string → string → bool.

(** The airlines table: airline id to name. *)
Variable airlines : gmap Z string.

Definition meets (fl : flight) (cv : condition * string) : bool :=
  match cv.1 with
  | ByDeparture => text_eq (departure_airport fl) cv.2
  | ByArrival => text_eq (arrival_airport fl) cv.2
  | ByDate => on_date (departure_datetime fl) cv.2
  end.

Definition view_flight (kf : Z * flight) : flight_view :=
  {| f_id := kf.1; f_row := kf.2;
     f_airline_name := airline_id kf.2 ≫= (airlines !!.) |}.

(** [cur.execute(query, params)] and [fetchall()] for a statement of the
    search: the connector refuses a statement whose placeholders and
    parameters differ in number; the rows are the flights that meet every
    condition with its parameter.  No ORDER BY: the order is the model's. *)
Definition execute_search (query : string) (params : list string) (d : database)
  : exn + list flight_view :=
  match read_search query with
  | Some conds =>
      if Nat.eqb (length conds) (length params)
      then inr (view_flight <$>
                  List.filter (λ kf, forallb (meets kf.2) (zip conds params))
                              (map_to_list (flights (data d))))
      else inl ProgrammingError
  | None => inl ProgrammingError
  end.

Definition search_flights (frm to date : option string) (d : database)
  : exn + list flight_view :=
  let '(query, params) := search_query frm to date in
  execute_search query params d.

End Search.

(** ** The live-flights snapshot *)

(** [fetch_live_flights] of [flightmanagementsystem.py].  A state vector
    of the feed, with the fields the function reads: [s[1]], [s[2]],
    [s[3]], [s[5]], [s[6]], [s[7]], [s[8]], typed as the feed documents
    them (a string or null, a number or null, a boolean). *)
Record state := {
  s_callsign : option string;
  s_origin_country : option string;
  s_time_position : option Z;
  s_longitude : option Q;
  s_latitude : option Q;
  s_baro_altitude : option Q;
  s_on_ground : bool }.

Record live_row := {
  callsign : string;
  origin_country : option string;
  time_position : option string;
  longitude : option Q;
  latitude : option Q;
  baro_alt_m : option Q;
  on_ground : bool }.

Inductive live_error :=
| RequestFailed                 (* the request, its status or its JSON *)
| BadTimestamp                  (* [utcfromtimestamp] out of range *)
| KeyError (column : string)    (* a column of a frame without columns *)
| BadPattern                    (* [re.error] *)
| BadLimit (e : exn).           (* [int(limit)] *)

(** The status text: "Snapshot rows: n", "No flights matched filters.",
    "Error: e". *)
Inductive live_status := Snapshot (n : nat) | NoMatch | LiveError (e : live_error).

(** A data frame of rows: whether it has the columns of the rows (a frame
    made from no row has none), and its rows. *)
Record frame := { has_columns : bool; frame_rows : list live_row }.

Section Live.

(** The library functions the snapshot relies on: [str.strip], the ISO
    text of a UTC timestamp ([None] when out of range), the compiled
    case-insensitive pattern of [str.contains] ([None] when the pattern is
    not a regular expression), and [int] on strings. *)
Variable strip : string → string.

Variable isoformat : Z → option string.

Variable pattern : string → option (string → bool).

Variable int_of_str : string → option Z.

Definition make_row (s : state) : live_error + live_row :=
  let cs := strip (default EmptyString (s_callsign s)) in
  let row tp := {| callsign := cs; origin_country := s_origin_country s;
                   time_position := tp; longitude := s_longitude s;
                   latitude := s_latitude s; baro_alt_m := s_baro_altitude s;
                   on_ground := s_on_ground s |} in
  match s_time_position s with
  | Some t =>
      if t =? 0 then inr (row None)
      else match isoformat t with
           | Some x => inr (row (Some x))
           | None => inl BadTimestamp
           end
  | None => inr (row None)
  end.

Fixpoint make_rows (states : list state) : live_error + list live_row :=
  match states with
  | [] => inr []
  | s :: rest =>
      match make_row s with
      | inl e => inl e
      | inr r =>
          match make_rows rest with
          | inl e => inl e
          | inr rs => inr (r :: rs)
          end
      end
  end.

(** [pd.DataFrame(rows)]. *)
Definition data_frame (rows : list live_row) : frame :=
  {| has_columns := match rows with [] => false | _ => true end;
     frame_rows := rows |}.

(** [df[df[column].str.contains(pat, case=False, na=False)]]. *)
Definition keep_matching (column : string) (value : live_row → option string)
    (pat : string) (df : frame) : live_error + frame :=
  if has_columns df then
    match pattern pat with
    | Some found =>
        inr {| has_columns := true;
               frame_rows := List.filter (λ r, match value r with
                                               | Some x => found x
                                               | None => false
                                               end) (frame_rows df) |}
    | None => inl BadPattern
    end
  else inl (KeyError column).

(** [df.head(n)]: the first [n] rows, or all but the last [-n]. *)
Definition df_head (n : Z) (rows : list live_row) : list live_row :=
  if 0 <=? n then take (Z.to_nat n) rows
  else take (length rows - Z.to_nat (- n)) rows.

Definition nonempty (s : string) : bool :=
  match s with EmptyString => false | _ => true end.

(** [fetched]: what the request gave -- [None] when it raised, else the
    ["states"] of the JSON, [None] when null or missing. *)
Definition fetch_live_flights (fetched : option (option (list state)))
    (country_filter callsign_contains : string) (limit : pyval)
  : live_status * list live_row :=
  match fetched with
  | None => (LiveError RequestFailed, [])
  | Some data =>
      let states := default [] data in
      match make_rows states with
      | inl e => (LiveError e, [])
      | inr rows =>
          let df := data_frame rows in
          match (if nonempty country_filter
                 then keep_matching "origin_country" origin_country country_filter df
                 else inr df) with
          | inl e => (LiveError e, [])
          | inr df =>
              match (if nonempty callsign_contains
                     then keep_matching "callsign" (λ r, Some (callsign r))
                                        callsign_contains df
                     else inr df) with
              | inl e => (LiveError e, [])
              | inr df =>
                  match frame_rows df with
                  | [] => (NoMatch, [])
                  | _ =>
                      match py_int int_of_str limit with
                      | inl e => (LiveError (BadLimit e), [])
                      | inr n =>
                          let out := df_head n (frame_rows df) in
                          (Snapshot (length out), out)
                      end
                  end
              end
          end
      end
  end.

(** The rows the two filters keep. *)
Definition passes (country_filter callsign_contains : string) (r : live_row)
  : Prop :=
  (nonempty country_filter = true →
   ∃ found x, pattern country_filter = Some found ∧
              origin_country r = Some x ∧ found x = true) ∧
  (nonempty callsign_contains = true →
   ∃ found, pattern callsign_contains = Some found ∧
            found (callsign r) = true).

End Live.

(** A feed of two state vectors and the library functions at which the
    properties of the snapshot are exercised. *)
Definition a_state (cs country : string) (t : Z) : state :=
  {| s_callsign := Some cs; s_origin_country := Some country;
     s_time_position := Some t; s_longitude := None; s_latitude := None;
     s_baro_altitude := None; s_on_ground := false |}.

Definition two_states : list state :=
  [a_state "DLH1" "Germany" 1; a_state "AFR2" "France" 2].

Definition any_time (t : Z) : option string := Some "1970-01-01T00:00:00".

Definition no_time (t : Z) : option string := None.

Definition exactly (pat : string) : option (string → bool) :=
  Some (String.eqb pat).

Definition french_row : live_row :=
  {| callsign := "AFR2"; origin_country := Some "France";
     time_position := Some "1970-01-01T00:00:00"; longitude := None;
     latitude := None; baro_alt_m := None; on_ground := false |}.

(** * Properties of a call *)

(** Runs a handler symbolically: reduces the program up to the next
    choice and splits on it. *)
Ltac symex :=
  repeat first
    [ progress (unfold lift, issue; simpl)
    | case_match; simplify_eq/= ];
  try done.

Lemma seats_row_Some t key n :
  seats_row t key = Some n →
  ∃ k fl, key = Some k ∧ flights t !! k = Some fl ∧ seats_available fl = n.
Proof.
  unfold seats_row. destruct key as [k|]; simpl; [|done].
  destruct (flights t !! k) eqn:E; simpl; [|done].
  intros [= <-]. eauto.
Qed.

Lemma reservation_row_Some tk id fid pid seat cls pr r :
  reservation_row tk id fid pid seat cls pr = Some r →
  reservation_id r = id
  ∧ (∃ s, to_mysql fid = Some s ∧ r_flight_id r = key_column tk s)
  ∧ to_mysql pr = Some (price r).
Proof.
  unfold reservation_row. intros H.
  destruct (to_mysql fid), (to_mysql pid), (to_mysql seat), (to_mysql cls),
    (to_mysql pr); simplify_eq/=. eauto.
Qed.

Lemma to_mysql_float x s :
  to_mysql (PFloat x) = Some s → ∃ q, x = Finite q ∧ s = SNum q.
Proof. destruct x; simpl; intros; simplify_eq; eauto. Qed.

Lemma key_column_key tk s k : key_of tk s = Some k → key_column tk s = SInt k.
Proof. unfold key_column. by intros ->. Qed.

Lemma flight_key_Some tk v s k :
  to_mysql v = Some s → key_of tk s = Some k → flight_key tk v = Some k.
Proof. unfold flight_key. by intros -> ?. Qed.

Lemma passenger_row_Some id n a g e row :
  passenger_row id n a g e = Some row → passenger_id row = id.
Proof.
  unfold passenger_row. intros H.
  destruct (to_mysql n), (to_mysql a), (to_mysql g), (to_mysql e);
    simplify_eq/=. done.
Qed.

Ltac not_in_log :=
  let H := fresh in
  intros H; repeat (apply elem_of_cons in H as [?|H]; [done|]);
  by apply elem_of_nil in H.

Ltac in_log := repeat first [ by apply list_elem_of_here | apply list_elem_of_further ].

(** The facts a committed run leaves in the context, put in the shape of
    [Committed]. *)
Ltac committed :=
  match goal with
  | Hsel : seats_row _ (key_of _ ?s) = Some _,
    Hrow : reservation_row _ _ _ _ _ _ _ = Some _,
    Hpa : passenger_row _ _ _ _ _ = Some _, Hle : (_ <=? 0) = false,
    Hv : to_mysql _ = Some ?s |- _ =>
      let Hk := fresh "Hk" in
      let Hfk := fresh "Hfk" in
      apply seats_row_Some in Hsel as (k & fl & Hk & Hfl & <-);
      rewrite !Hk;
      pose proof (flight_key_Some _ _ _ _ Hv Hk) as Hfk;
      apply reservation_row_Some in Hrow as (Hid & (s' & Hs' & Hfid) & Hpr);
      apply to_mysql_float in Hpr as (q & Hq & Hpr);
      apply passenger_row_Some in Hpa;
      apply Z.leb_gt in Hle;
      eapply (Committed _ _ _ _ _ _ k fl _ _ q);
      [ reflexivity | exact Hfk | exact Hfl | exact Hle
      | reflexivity | exact Hpa | exact Hid
      | rewrite Hfid; simplify_eq/=; by apply key_column_key
      | simpl; try match goal with H : truthy _ = _ |- _ => rewrite H end;
        simplify_eq/=; first [ eassumption | reflexivity ]
      | exact Hpr | in_log | reflexivity ]
  end.

Lemma book_summary ff f payload d :
  let x := run f (book ff payload) (fresh d) in
  summary ff d (HttpBook payload) x.1 (Http x.2).
Proof.
  unfold book. destruct payload; simpl; try by apply Unchanged; [|not_in_log|].
  symex; try by (apply Unchanged; [|not_in_log|]).
  committed.
Qed.

Lemma book_ticket_summary ff fi f n a g e fid seat cls pr d :
  let x := run f (book_ticket ff fi n a g e fid seat cls pr) (fresh d) in
  summary ff d (UiBook n a g e fid seat cls pr) x.1 (Ui x.2).
Proof.
  unfold book_ticket. simpl.
  symex; try by (apply Unchanged; [|not_in_log|]).
  all: committed.
Qed.

Lemma serve_summary ff fi f c d :
  summary ff d c (serve ff fi f c d).1 (serve ff fi f c d).2.
Proof.
  destruct c as [payload | n a g e fid seat cls pr]; unfold serve.
  - pose proof (book_summary ff f payload d) as H. cbv zeta in H.
    destruct (run f (book ff payload) (fresh d)) as [w r]. exact H.
  - pose proof (book_ticket_summary ff fi f n a g e fid seat cls pr d) as H.
    cbv zeta in H.
    destruct (run f (book_ticket ff fi n a g e fid seat cls pr) (fresh d))
      as [w r]. exact H.
Qed.

Lemma confirms_succeeded c o : confirms c o → succeeded o = true.
Proof. destruct c; simpl; by intros ->. Qed.

Lemma succeeded_commits ff fi f c d :
  succeeded (serve ff fi f c d).2 = true ↔ Commit ∈ log (serve ff fi f c d).1.
Proof.
  destruct (serve_summary ff fi f c d)
    as [Hd Hlog Hs | v k' fl pa re q Hreq Hv Hfl Hpos Hd Hpid Hrid Hrf Hch Hpr Hlog Hc].
  - rewrite Hs. split; [done | intros; by destruct Hlog].
  - apply confirms_succeeded in Hc. by rewrite Hc.
Qed.

(** *** Atomicity *)

(** C3.  A call that does not report a booking, whatever made it fail --
    a refused or failing statement at any point, a missing flight, no seat,
    a conversion error, a failing commit -- leaves the committed tables as
    they were: no passenger, no reservation and no seat counter of that call
    persists. *)
Theorem failed_call_leaves_tables ff fi f c d :
  succeeded (serve ff fi f c d).2 = false →
  data (after ff fi f c d) = data d.
Proof.
  intros Hfail. unfold after.
  destruct (serve_summary ff fi f c d)
    as [Hd Hlog Hs | v k' fl pa re q Hreq Hv Hfl Hpos Hd Hpid Hrid Hrf Hch Hpr Hlog Hc].
  - exact Hd.
  - apply confirms_succeeded in Hc. congruence.
Qed.

Lemma failed_call_leaves_tables_witness :
  succeeded (serve no_float no_int (fail_at OpCommit) (HttpBook (jane (PFloat 150)))
               (one_flight 42 10)).2 = false
  ∧ data (after no_float no_int (fail_at OpCommit) (HttpBook (jane (PFloat 150)))
            (one_flight 42 10)) = data (one_flight 42 10).
Proof.
  split; [reflexivity|].
  apply (failed_call_leaves_tables no_float no_int (fail_at OpCommit)
           (HttpBook (jane (PFloat 150))) (one_flight 42 10)).
  reflexivity.
Defined.

(** Each point of failure of the scenario booking, in both handlers. *)
Example every_failure_point :
  Forall (λ o,
    data (after no_float no_int (fail_at o) (HttpBook (jane (PFloat 150)))
            (one_flight 42 10)) = data (one_flight 42 10)
    ∧ data (after no_float no_int (fail_at o) (jane_ui (PInt 42)) (one_flight 42 10))
      = data (one_flight 42 10))
    [OpConnect; OpInsertPassenger; OpSelectSeats; OpInsertReservation;
     OpUpdateSeats; OpCommit].
Proof. repeat constructor. Qed.

(** The generated identifiers are not part of that: the failed call has
    used up a passenger id and a reservation id. *)
Example failed_call_uses_up_ids :
  let d := after no_float no_int (fail_at OpCommit) (HttpBook (jane (PFloat 150)))
             (one_flight 42 10) in
  passenger_seq d = 2 ∧ reservation_seq d = 2.
Proof. split; reflexivity. Qed.

(** The scenario of the specification: flight 42 with 10 seats, Jane Doe,
    seat 12A, Business, 150.00. *)
Example jane_scenario :
  let x := serve no_float no_int no_fault (HttpBook (jane (PFloat 150)))
             (one_flight 42 10) in
  x.2 = Http (inr (Json 200 [("status", Lit "booked")]))
  ∧ flights (data (db x.1)) !! 42 = Some (a_flight 9)
  ∧ reservations (data (db x.1))
    = [{| reservation_id := 1; r_flight_id := SInt 42; r_passenger_id := SInt 1;
          seat_number := SStr "12A"; travel_class := SStr "Business";
          price := SNum 150 |}]
  ∧ passengers (data (db x.1))
    = [{| passenger_id := 1; full_name := SStr "Jane Doe"; age := SNull;
          gender := SNull; email := SNull |}].
Proof. vm_compute. done. Qed.

(** *** Effect of one call on the flights *)

Lemma after_flights ff fi f c d k :
  flights (data (after ff fi f c d)) !! k = flights (data d) !! k
  ∨ ∃ v fl re,
      requested c = inr v ∧ flight_key (text_key d) v = Some k
      ∧ flights (data d) !! k = Some fl ∧ 0 < seats_available fl
      ∧ flights (data (after ff fi f c d)) !! k = Some (take_seat fl)
      ∧ reservations (data (after ff fi f c d)) = reservations (data d) ++ [re]
      ∧ r_flight_id re = SInt k.
Proof.
  unfold after.
  destruct (serve_summary ff fi f c d)
    as [Hd Hlog Hs | v k' fl pa re q Hreq Hv Hfl Hpos Hd Hpid Hrid Hrf Hch Hpr Hlog Hc].
  - left. by rewrite Hd.
  - rewrite Hd. simpl. destruct (decide (k' = k)) as [->|Hne].
    + right. exists v, fl, re. rewrite lookup_alter_eq, Hfl. done.
    + left. by rewrite lookup_alter_ne.
Qed.

Lemma booked_on_snoc k t t' re :
  reservations t' = reservations t ++ [re] →
  booked_on k t' = booked_on k t + (if refers_to k re then 1 else 0).
Proof.
  unfold booked_on. intros ->. rewrite List.filter_app, length_app. simpl.
  destruct (refers_to k re); simpl; lia.
Qed.

Lemma booked_on_reservations k t t' :
  reservations t' = reservations t → booked_on k t' = booked_on k t.
Proof. unfold booked_on. by intros ->. Qed.

Lemma after_booked_on ff fi f c d k :
  (flights (data (after ff fi f c d)) !! k = flights (data d) !! k
   ∧ booked_on k (data (after ff fi f c d)) = booked_on k (data d))
  ∨ ∃ fl, flights (data d) !! k = Some fl ∧ 0 < seats_available fl
      ∧ flights (data (after ff fi f c d)) !! k = Some (take_seat fl)
      ∧ booked_on k (data (after ff fi f c d)) = booked_on k (data d) + 1.
Proof.
  unfold after.
  destruct (serve_summary ff fi f c d)
    as [Hd Hlog Hs | v k' fl pa re q Hreq Hv Hfl Hpos Hd Hpid Hrid Hrf Hch Hpr Hlog Hc].
  - left. by rewrite Hd.
  - rewrite Hd. rewrite (booked_on_snoc k (data d) _ re) by done.
    unfold refers_to. rewrite Hrf. simpl.
    destruct (decide (k' = k)) as [->|Hne].
    + right. exists fl. rewrite lookup_alter_eq, Hfl, Z.eqb_refl. done.
    + left. rewrite lookup_alter_ne by done.
      apply Z.eqb_neq in Hne. rewrite Hne. split; [done | lia].
Qed.

(** *** Conservation of the counter *)

Lemma initial_conserved t :
  reservations t = [] → conserved (capacity t) t.
Proof.
  intros Hnone k fl Hfl. unfold capacity, booked_on.
  rewrite Hfl, Hnone. simpl. lia.
Qed.

Lemma after_conserved ff fi f c d cap :
  conserved cap (data d) → conserved cap (data (after ff fi f c d)).
Proof.
  intros Hcons k fl' Hfl'.
  destruct (after_booked_on ff fi f c d k) as [[Hsame Hb] | (fl & Hfl & _ & Hfl2 & Hb)].
  - rewrite Hb. apply Hcons. by rewrite <- Hsame.
  - rewrite Hb. rewrite Hfl2 in Hfl'. injection Hfl' as <-. simpl.
    specialize (Hcons k fl Hfl). lia.
Qed.

(** C2.  Along any sequence of booking calls, each with any storage
    failures, every flight keeps [seats_available] plus the number of
    reservations that reference it equal to its capacity [cap]. *)
Theorem counter_conservation ff fi cs d cap :
  conserved cap (data d) → conserved cap (data (serve_all ff fi cs d)).
Proof.
  revert d. induction cs as [|[f c] cs IH]; intros d Hcons; simpl.
  - exact Hcons.
  - apply IH. by apply after_conserved.
Qed.

Lemma counter_conservation_witness :
  conserved (capacity (data (one_flight 42 10))) (data (one_flight 42 10))
  ∧ conserved (capacity (data (one_flight 42 10)))
      (data (serve_all no_float no_int
               [(no_fault, HttpBook (jane (PFloat 150))); (no_fault, jane_ui (PInt 42))]
               (one_flight 42 10))).
Proof.
  split.
  - apply initial_conserved. reflexivity.
  - apply (counter_conservation no_float no_int _ (one_flight 42 10)).
    apply initial_conserved. reflexivity.
Defined.

Lemma after_keeps_flight ff fi f c d k :
  is_Some (flights (data d) !! k) → is_Some (flights (data (after ff fi f c d)) !! k).
Proof.
  intros Hk.
  destruct (after_booked_on ff fi f c d k) as [[-> _] | (fl & _ & _ & -> & _)]; eauto.
Qed.

(** From a database without reservations, the capacity is the seat count
    the flight starts with. *)
Corollary conservation_from_start ff fi cs d k fl0 :
  reservations (data d) = [] → flights (data d) !! k = Some fl0 →
  ∃ fl, flights (data (serve_all ff fi cs d)) !! k = Some fl
        ∧ seats_available fl + booked_on k (data (serve_all ff fi cs d))
          = seats_available fl0.
Proof.
  intros Hnone Hfl0.
  assert (∀ cap d', is_Some (flights (data d') !! k) → conserved cap (data d') →
            ∃ fl, flights (data (serve_all ff fi cs d')) !! k = Some fl
                  ∧ seats_available fl + booked_on k (data (serve_all ff fi cs d'))
                    = cap k) as Hgen.
  { intros cap. induction cs as [|[f c] cs IH]; intros d' [fl Hfl] Hcons; simpl.
    - exists fl. split; [done|]. by apply Hcons.
    - apply IH; [apply after_keeps_flight; eauto | by apply after_conserved]. }
  destruct (Hgen (capacity (data d)) d) as (fl & Hfl & Heq);
    [eauto | by apply initial_conserved |].
  exists fl. split; [done|]. rewrite Heq. unfold capacity. by rewrite Hfl0.
Qed.

(** *** The counter stays non-negative *)

Lemma after_nonneg ff fi f c d :
  nonneg (data d) → nonneg (data (after ff fi f c d)).
Proof.
  intros Hnn k fl' Hfl'.
  destruct (after_booked_on ff fi f c d k) as [[Hsame _] | (fl & Hfl & Hpos & Hfl2 & _)].
  - apply (Hnn k). by rewrite <- Hsame.
  - rewrite Hfl2 in Hfl'. injection Hfl' as <-. simpl. lia.
Qed.

(** Run one after the other, the calls keep the counters non-negative,
    whatever fails in them: a seat is only taken from a flight whose
    counter the same call has read strictly positive.  Calls that run at
    the same time are another matter, below. *)
Theorem seats_never_negative ff fi cs d :
  nonneg (data d) → nonneg (data (serve_all ff fi cs d)).
Proof.
  revert d. induction cs as [|[f c] cs IH]; intros d Hnn; simpl.
  - exact Hnn.
  - apply IH. by apply after_nonneg.
Qed.

Lemma one_flight_nonneg k n : 0 ≤ n → nonneg (data (one_flight k n)).
Proof.
  intros Hn k' fl Hfl. simpl in Hfl.
  apply lookup_singleton_Some in Hfl as [_ <-]. exact Hn.
Qed.

Lemma seats_never_negative_witness :
  nonneg (data (one_flight 42 1))
  ∧ nonneg (data (serve_all no_float no_int
                    [(no_fault, jane_ui (PInt 42));
                     (no_fault, HttpBook (jane (PFloat 150)))]
                    (one_flight 42 1))).
Proof.
  split.
  - apply one_flight_nonneg. lia.
  - apply (seats_never_negative no_float no_int _ (one_flight 42 1)).
    apply one_flight_nonneg. lia.
Defined.

(** *** Frame *)

Lemma take_seat_same_but_seats fl : same_but_seats fl (take_seat fl).
Proof. by repeat split. Qed.

(** C10.  A booking call, successful or not, leaves every flight row as it
    was, except that the row the call's [flight_id] selects may have lost
    one seat, all its other fields unchanged.  (Passengers and reservations
    are the only other tables the statements write.) *)
Theorem booking_frame ff fi f c d k :
  flights (data (after ff fi f c d)) !! k = flights (data d) !! k
  ∨ ∃ v fl fl',
      requested c = inr v ∧ flight_key (text_key d) v = Some k
      ∧ flights (data d) !! k = Some fl
      ∧ flights (data (after ff fi f c d)) !! k = Some fl'
      ∧ seats_available fl' = seats_available fl - 1
      ∧ same_but_seats fl fl'.
Proof.
  destruct (after_flights ff fi f c d k)
    as [Hsame | (v & fl & re & Hreq & Hv & Hfl & _ & Hfl' & _)].
  - by left.
  - right. exists v, fl, (take_seat fl).
    split_and!; first [done | apply take_seat_same_but_seats].
Qed.

(** The row is selected as the server compares: a [flight_id] sent as the
    text "42" or as the decimal 42.0 books flight 42, and the reservation
    holds the key 42. *)
Example text_flight_id_books_the_flight :
  Forall (λ fid,
    let x := serve no_float no_int no_fault (HttpBook (jo fid)) (one_flight 42 10) in
    x.2 = Http (inr (Json 200 [("status", Lit "booked")]))
    ∧ flights (data (db x.1)) !! 42 = Some (a_flight 9)
    ∧ r_flight_id <$> reservations (data (db x.1)) = [SInt 42])
    [PStr "42"; PFloat 42; PInt 42].
Proof. repeat constructor. Qed.

(** *** What a committed call returns *)

(** C5, as the code has it.  A call that commits returns the success
    confirmation of its handler: the HTTP view the body
    [{"status": "booked"}] with status 200, the callback the message
    "Booking successful! Reservation ID: n" for some number [n]. *)
Theorem commit_confirmation ff fi f c d :
  Commit ∈ log (serve ff fi f c d).1 →
  match c with
  | HttpBook _ =>
      (serve ff fi f c d).2 = Http (inr (Json 200 [("status", Lit "booked")]))
  | UiBook _ _ _ _ _ _ _ _ =>
      ∃ n, (serve ff fi f c d).2 = Ui (inr (Booked n))
  end.
Proof.
  intros Hcommit.
  destruct (serve_summary ff fi f c d)
    as [Hd Hlog Hs | v k' fl pa re q Hreq Hv Hfl Hpos Hd Hpid Hrid Hrf Hch Hpr Hlog Hc].
  - by destruct Hlog.
  - destruct c; [exact Hc | exists 0; exact Hc].
Qed.

Lemma commit_confirmation_witness :
  Commit ∈ log (serve no_float no_int no_fault (HttpBook (jane (PFloat 150)))
                  (one_flight 42 10)).1
  ∧ (serve no_float no_int no_fault (HttpBook (jane (PFloat 150)))
       (one_flight 42 10)).2
    = Http (inr (Json 200 [("status", Lit "booked")])).
Proof.
  assert (Commit ∈ log (serve no_float no_int no_fault (HttpBook (jane (PFloat 150)))
                          (one_flight 42 10)).1) as H.
  { vm_compute. in_log. }
  split; [exact H|].
  exact (commit_confirmation no_float no_int no_fault (HttpBook (jane (PFloat 150)))
           (one_flight 42 10) H).
Defined.

(** C5 as stated fails: the scenario booking commits reservation 1 and the
    HTTP confirmation carries no identifier. *)
Lemma book_confirmation_without_id :
  let x := serve no_float no_int no_fault (HttpBook (jane (PFloat 150)))
             (one_flight 42 10) in
  Commit ∈ log x.1
  ∧ (∃ re, reservations (data (db x.1)) = [re] ∧ reservation_id re = 1
           ∧ ¬ carries (reservation_id re) x.2).
Proof.
  split.
  - vm_compute. in_log.
  - eexists. split; [reflexivity|]. split; [reflexivity|].
    intros [key Hin]. vm_compute in Hin.
    apply list_elem_of_singleton in Hin. discriminate.
Qed.

(** The callback reads [cur.lastrowid] after the UPDATE: it reports 0,
    whatever reservation it created. *)
Lemma book_ticket_reports_zero :
  let x := serve no_float no_int no_fault (jane_ui (PInt 42)) (one_flight 42 10) in
  x.2 = Ui (inr (Booked 0))
  ∧ ∃ re, reservations (data (db x.1)) = [re] ∧ reservation_id re = 1.
Proof. split; [reflexivity|]. eexists. split; reflexivity. Qed.

(** *** The stored price *)

Lemma charged_price_rule ff c (q : Q) :
  charged ff c = inr (Finite q) → price_rule ff c q.
Proof.
  destruct c as [payload | n a g e fid seat cls pr]; simpl.
  - destruct payload; simpl; try done.
    destruct (dict_find d "price"); simpl; [done|].
    by intros [= <-].
  - destruct (truthy pr); [done | by intros [= <-]].
Qed.

(** C7, as the code has it.  The reservation of a successful call stores
    price 0 when the price is left out, and otherwise the [float] of the
    supplied price as it is: no sign is checked. *)
Theorem stored_price ff fi f c d :
  succeeded (serve ff fi f c d).2 = true →
  ∃ re q,
    reservations (data (after ff fi f c d)) = reservations (data d) ++ [re]
    ∧ price re = SNum q ∧ price_rule ff c q.
Proof.
  intros Hok. unfold after.
  destruct (serve_summary ff fi f c d)
    as [Hd Hlog Hs | v k' fl pa re q Hreq Hv Hfl Hpos Hd Hpid Hrid Hrf Hch Hpr Hlog Hc].
  - congruence.
  - exists re, q. rewrite Hd. split_and!; [done | done |].
    by apply charged_price_rule.
Qed.

Lemma stored_price_witness :
  succeeded (serve no_float no_int no_fault (jane_ui (PInt 42)) (one_flight 42 10)).2 = true
  ∧ ∃ re q,
      reservations (data (after no_float no_int no_fault (jane_ui (PInt 42))
                            (one_flight 42 10)))
      = reservations (data (one_flight 42 10)) ++ [re]
      ∧ price re = SNum q ∧ price_rule no_float (jane_ui (PInt 42)) q.
Proof.
  split; [reflexivity|].
  apply (stored_price no_float no_int no_fault (jane_ui (PInt 42)) (one_flight 42 10)).
  reflexivity.
Defined.

(** C7 as stated fails: a price of -5 is stored as -5. *)
Lemma negative_price_is_stored :
  let x := serve no_float no_int no_fault (HttpBook (jane (PInt (-5))))
             (one_flight 42 10) in
  succeeded x.2 = true
  ∧ ∃ re, reservations (data (db x.1)) = [re]
          ∧ price re = SNum (inject_Z (-5)) ∧ (inject_Z (-5) < 0)%Q.
Proof.
  split; [reflexivity|]. eexists. split; [reflexivity|]. split; reflexivity.
Qed.

(** The stored price is the double [float] gives, not the number that was
    supplied: an integer past 53 bits is stored rounded, and one past the
    largest double is not stored at all, [float] raising before the
    required fields are looked at. *)
Example integer_price_is_converted :
  (let x := serve no_float no_int no_fault (HttpBook (jane (PInt (2 ^ 53 + 1))))
              (one_flight 42 10) in
   succeeded x.2 = true
   ∧ price <$> reservations (data (db x.1)) = [SNum (inject_Z (2 ^ 53))])
  ∧ serve no_float no_int no_fault (HttpBook (nameless (PInt (10 ^ 400))))
          (one_flight 42 10)
    = (fresh (one_flight 42 10), Http (inl OverflowError)).
Proof. split; [split|]; vm_compute; reflexivity. Qed.

(** A price that is not a number passes [float] and the required-field
    check and is refused with the reservation insert: the view rolls back
    and answers 500, and nothing is stored. *)
Example nan_price_is_not_stored :
  let x := serve no_float no_int no_fault (HttpBook (jane (PFloat NaN)))
             (one_flight 42 10) in
  x.2 = Http (inr (Json 500 [("error", StrOf ProgrammingError)]))
  ∧ data (db x.1) = data (one_flight 42 10).
Proof. split; reflexivity. Qed.

(** *** Validation and what runs before it *)

(** C9.  In [book] the price is converted before the required fields are
    looked at: when the payload has a [price] on which [float] raises, the
    exception leaves the view -- no validation error, no connection, no
    statement -- whatever the other fields are and whatever the storage
    would have done. *)
Theorem price_coercion_precedes_validation ff fi f dct v e d :
  dict_find dct "price" = Some v →
  py_float ff v = inl e →
  serve ff fi f (HttpBook (PDict dct)) d = (fresh d, Http (inl e)).
Proof.
  intros Hv He. unfold serve, book. simpl. rewrite Hv. simpl.
  unfold lift. rewrite He. reflexivity.
Qed.

Lemma price_coercion_precedes_validation_witness :
  dict_find [("passenger", PDict [("full_name", PStr EmptyString)]); ("flight_id", PInt 42);
             ("price", PNone)] "price" = Some PNone
  ∧ py_float no_float PNone = inl TypeError
  ∧ serve no_float no_int no_fault (HttpBook (nameless PNone)) (one_flight 42 10)
    = (fresh (one_flight 42 10), Http (inl TypeError)).
Proof.
  split; [reflexivity|]. split; [reflexivity|].
  apply (price_coercion_precedes_validation no_float no_int no_fault _ PNone TypeError);
    reflexivity.
Defined.

(** C4 as stated fails: an empty [full_name] with a [price] that does not
    convert gets the conversion exception, not the validation error. *)
Lemma empty_name_without_validation_error :
  (serve no_float no_int no_fault (HttpBook (nameless PNone)) (one_flight 42 10)).2
  = Http (inl TypeError)
  ∧ (serve no_float no_int no_fault (HttpBook (nameless PNone)) (one_flight 42 10)).2
    ≠ validation_error.
Proof. split; [reflexivity | discriminate]. Qed.

(** C4, as the code has it.  In [book], once the price has converted and
    the passenger field is an object, a falsy [full_name] or a falsy
    [flight_id] gives the validation error (status 400) with the world
    untouched: no connection is opened, no statement issued, whatever the
    storage would have done. *)
Theorem validation_before_storage ff fi f payload p name fid (x : pyfloat) d :
  charged ff (HttpBook payload) = inr x →
  py_get payload "passenger" (PDict []) = inr p →
  py_get p "full_name" PNone = inr name →
  py_get payload "flight_id" PNone = inr fid →
  truthy name = false ∨ truthy fid = false →
  serve ff fi f (HttpBook payload) d = (fresh d, validation_error).
Proof.
  intros Hq Hp Hname Hfid Hmiss. unfold serve, book.
  destruct payload; simpl in *; try done.
  destruct (py_float ff _) eqn:Hfl; [done|]. simpl.
  unfold lift. simplify_eq/=. rewrite Hname. simpl.
  destruct Hmiss as [-> | ->]; simpl; [done|].
  by rewrite orb_true_r.
Qed.

Lemma validation_before_storage_witness :
  charged no_float (HttpBook (nameless (PFloat 150))) = inr (Finite 150)
  ∧ py_get (nameless (PFloat 150)) "passenger" (PDict [])
    = inr (PDict [("full_name", PStr EmptyString)])
  ∧ py_get (PDict [("full_name", PStr EmptyString)]) "full_name" PNone
    = inr (PStr EmptyString)
  ∧ py_get (nameless (PFloat 150)) "flight_id" PNone = inr (PInt 42)
  ∧ (truthy (PStr EmptyString) = false ∨ truthy (PInt 42) = false)
  ∧ serve no_float no_int (fail_at OpConnect) (HttpBook (nameless (PFloat 150)))
          (one_flight 42 10)
    = (fresh (one_flight 42 10), validation_error).
Proof.
  do 4 (split; [reflexivity|]). split; [by left|].
  apply (validation_before_storage no_float no_int (fail_at OpConnect)
           (nameless (PFloat 150)) (PDict [("full_name", PStr EmptyString)])
           (PStr EmptyString) (PInt 42)
           (Finite 150));
    first [reflexivity | by left].
Defined.

(** The callback validates nothing: an empty name is booked. *)
Lemma book_ticket_accepts_empty_name :
  let x := serve no_float no_int no_fault
             (UiBook (PStr EmptyString) PNone PNone (PStr EmptyString) (PInt 42)
                     (PStr EmptyString) PNone PNone)
             (one_flight 42 10) in
  x.2 = Ui (inr (Booked 0))
  ∧ ∃ pa, passengers (data (db x.1)) = [pa] ∧ full_name pa = SStr EmptyString.
Proof. split; [reflexivity|]. eexists. split; reflexivity. Qed.

(** *** The seat check *)

Lemma seats_row_find d pa v s :
  to_mysql v = Some s →
  seats_row (add_passenger pa (data d)) (key_of (text_key d) s)
  = seats_available <$> find_flight d v.
Proof.
  intros Hv. unfold seats_row, find_flight, flight_key. rewrite Hv. simpl.
  destruct (key_of (text_key d) s) as [k|]; simpl; [|done].
  by destruct (flights (data d) !! k).
Qed.






(** The last seat gone: the next call is refused with the no-seats answer. *)
Example sold_out_after_last_seat :
  let d := after no_float no_int no_fault (jane_ui (PInt 42)) (one_flight 42 1) in
  flights (data d) !! 42 = Some (a_flight 0)
  ∧ (serve no_float no_int no_fault (HttpBook (jane (PFloat 150))) d).2
    = sold_out (HttpBook (jane (PFloat 150)))
  ∧ (serve no_float no_int no_fault (jane_ui (PInt 42)) d).2 = Ui (inr NoSeats).
Proof. vm_compute. done. Qed.

(** * Properties of interleaved calls *)

(** C1, where the code breaks it.  Two [book_ticket] calls for the last
    seat of flight 42, interleaved so that both read the counter before
    either updates it, both return a booking: two reservations on a
    capacity of one, and a counter of -1. *)
Theorem book_ticket_oversells_last_seat :
  let m := run_schedule both_read_first ui_pair in
  capacity (data (store ui_pair)) 42 = 1
  ∧ returned is_booked m = 2%nat
  ∧ booked_on 42 (data (store m)) = 2
  ∧ flights (data (store m)) !! 42 = Some (a_flight (-1)).
Proof. vm_compute. done. Qed.

(** C8, where the code breaks it.  The counters of [ui_pair] start
    non-negative.  Each of the two [book_ticket] calls reads the last seat
    of flight 42 before the other takes it, passes the check of line 64
    and decrements: both report a booking and the flight ends with
    [seats_available = -1]. *)
Theorem book_ticket_drives_counter_negative :
  let m := run_schedule both_read_first ui_pair in
  nonneg (data (store ui_pair))
  ∧ map code (clients m) = [Ret (Booked 0); Ret (Booked 0)]
  ∧ (∃ fl, flights (data (store m)) !! 42 = Some fl ∧ seats_available fl = -1)
  ∧ ¬ nonneg (data (store m)).
Proof.
  intros m.
  assert (flights (data (store m)) !! 42 = Some (a_flight (-1))) as Hfl
    by (vm_compute; done).
  split; [apply one_flight_nonneg; lia|].
  split; [vm_compute; reflexivity|].
  split; [by exists (a_flight (-1))|].
  intros Hnn. specialize (Hnn 42 (a_flight (-1)) Hfl). simpl in Hnn. lia.
Qed.

(** The same interleaving of two [book] calls: the second waits at its
    [SELECT ... FOR UPDATE] until the first has committed, reads 0 and is
    refused. *)
Example book_serialises_last_seat :
  let m := run_schedule both_read_first http_pair in
  map code (clients m)
  = [Ret (Json 200 [("status", Lit "booked")]);
     Ret (Json 400 [("error", Lit "no seats available")])]
  ∧ booked_on 42 (data (store m)) = 1
  ∧ flights (data (store m)) !! 42 = Some (a_flight 0).
Proof. vm_compute. done. Qed.

(** ** The discipline keeps the counters right *)

Lemma apply_writes_snoc ws wr t :
  apply_writes (ws ++ [wr]) t = apply_write (apply_writes ws t) wr.
Proof. unfold apply_writes. by rewrite fold_left_app. Qed.

Lemma shape_nil : shape Idle [].
Proof. intros t. simpl. split; [done | intros; lia]. Qed.

Lemma shape_passenger ph ws row :
  shape ph ws → shape ph (ws ++ [WPassenger row]).
Proof.
  intros Hs t. rewrite apply_writes_snoc. simpl.
  destruct (Hs t) as [Hf Hb]. split; [exact Hf|].
  intros k'. rewrite <- Hb. by apply booked_on_reservations.
Qed.

Lemma shape_reservation_unkeyed tk ph ws row s :
  r_flight_id row = key_column tk s → key_of tk s = None →
  shape ph ws → shape ph (ws ++ [WReservation row]).
Proof.
  intros Hrow Hkey Hs t. rewrite apply_writes_snoc. simpl.
  destruct (Hs t) as [Hf Hb]. split; [exact Hf|].
  intros k'. rewrite (booked_on_snoc k' (apply_writes ws t) _ row) by done.
  rewrite Hb. unfold refers_to, key_column in *. rewrite Hrow, Hkey.
  destruct s; simpl in *; try lia. discriminate.
Qed.

Lemma shape_reservation k ws row :
  r_flight_id row = SInt k →
  shape (Holding k) ws → shape (Reserved k) (ws ++ [WReservation row]).
Proof.
  intros Hkey Hs t. rewrite apply_writes_snoc. simpl.
  destruct (Hs t) as [Hf Hb]. split; [exact Hf|].
  intros k'. rewrite (booked_on_snoc k' (apply_writes ws t) _ row) by done.
  rewrite Hb. unfold refers_to. rewrite Hkey.
  destruct (decide (k = k')) as [->|Hne].
  - rewrite Z.eqb_refl. lia.
  - apply Z.eqb_neq in Hne. rewrite Hne. lia.
Qed.

Lemma shape_seat k ws :
  shape (Reserved k) ws → shape (Taken k) (ws ++ [WSeat (Some k)]).
Proof.
  intros Hs t. rewrite apply_writes_snoc. simpl.
  destruct (Hs t) as [Hf Hb].
  split; [by rewrite Hf|].
  intros k'. rewrite <- Hb. by apply booked_on_reservations.
Qed.

Lemma shape_seat_unkeyed ph ws : shape ph ws → shape ph (ws ++ [WSeat None]).
Proof. intros Hs t. rewrite apply_writes_snoc. simpl. exact (Hs t). Qed.

Lemma release_other (i j : nat) (lk : gmap Z nat) k :
  j ≠ i → lk !! k = Some j → release i lk !! k = Some j.
Proof.
  intros Hne Hk. unfold release. apply map_lookup_filter_Some. done.
Qed.

Lemma lock_other (i j : nat) (lk : gmap Z nat) k0 k :
  free_for i lk k0 = true → j ≠ i → lk !! k = Some j →
  <[k0 := i]> lk !! k = Some j.
Proof.
  intros Hfree Hne Hk. rewrite lookup_insert_ne; [done|].
  intros ->. unfold free_for in Hfree. rewrite Hk in Hfree.
  apply Nat.eqb_eq in Hfree. done.
Qed.

Lemma lock_mine (i : nat) (lk : gmap Z nat) k0 k :
  lk !! k = Some i → <[k0 := i]> lk !! k = Some i.
Proof.
  intros Hk. destruct (decide (k0 = k)) as [->|Hne].
  - by rewrite lookup_insert_eq.
  - by rewrite lookup_insert_ne.
Qed.

Lemma holds_locked i d d' lk lk' ph :
  flights (data d') = flights (data d) →
  (∀ k, lk !! k = Some i → lk' !! k = Some i) →
  holds i d lk ph → holds i d' lk' ph.
Proof.
  intros Hf Hlk. destruct ph; simpl; [done|..];
    intros [Hk Hfl]; rewrite Hf; split; auto.
Qed.

Lemma keeps_refl i d lk : keeps i d lk d lk.
Proof. by intros j k _ Hk. Qed.

Lemma keeps_release i d d' lk :
  flights (data d') = flights (data d) → keeps i d lk d' (release i lk).
Proof.
  intros Hf j k Hne Hk. rewrite Hf. split; [by apply release_other | done].
Qed.

Lemma keeps_lock i d d' lk k0 :
  flights (data d') = flights (data d) → free_for i lk k0 = true →
  keeps i d lk d' (<[k0 := i]> lk).
Proof.
  intros Hf Hfree j k Hne Hk. rewrite Hf. split; [by eapply lock_other | done].
Qed.

Lemma select_holding d ws fid s k n :
  to_mysql fid = Some s → flight_key (text_key d) fid = Some k → shape Idle ws →
  seats_row (apply_writes ws (data d)) (key_of (text_key d) s) = Some n →
  (0 <? n) = true →
  row_key d s = Some k
  ∧ ∃ fl, flights (data d) !! k = Some fl ∧ 0 < seats_available fl.
Proof.
  intros Hs Hk Hshape Hrow Hn. unfold flight_key in Hk. rewrite Hs in Hk.
  simpl in Hk. apply seats_row_Some in Hrow as (k' & fl & Hk' & Hfl & <-).
  rewrite Hk in Hk'. injection Hk' as <-.
  destruct (Hshape (data d)) as [Hf _]. rewrite Hf in Hfl.
  unfold row_key. rewrite Hk. simpl. rewrite Hfl. simpl. split; [done|].
  exists fl. split; [done|]. by apply Z.ltb_lt.
Qed.

Lemma commit_sound cap i d lk ph ws :
  (∀ k, ph ≠ Reserved k) → shape ph ws → holds i d lk ph →
  conserved cap (data d) → nonneg (data d) →
  conserved cap (apply_writes ws (data d))
  ∧ nonneg (apply_writes ws (data d))
  ∧ keeps i d lk (publish (apply_writes ws (data d)) d) (release i lk).
Proof.
  intros Hph Hshape Hholds Hcons Hnn.
  destruct (Hshape (data d)) as [Hf Hb].
  destruct ph as [|k|k|k]; try (by destruct (Hph k)).
  - split_and!.
    + intros k fl Hfl. rewrite Hb, Z.add_0_r. apply Hcons. by rewrite <- Hf.
    + intros k fl Hfl. apply (Hnn k). by rewrite <- Hf.
    + by apply keeps_release.
  - split_and!.
    + intros k' fl Hfl. rewrite Hb, Z.add_0_r. apply Hcons. by rewrite <- Hf.
    + intros k' fl Hfl. apply (Hnn k'). by rewrite <- Hf.
    + by apply keeps_release.
  - destruct Hholds as [Hlk (fl & Hfl & Hpos)]. split_and!.
    + intros k' fl' Hfl'. rewrite Hb. rewrite Hf in Hfl'.
      destruct (decide (k = k')) as [<-|Hne].
      * rewrite lookup_alter_eq, Hfl in Hfl'. injection Hfl' as <-. simpl.
        specialize (Hcons k fl Hfl). lia.
      * rewrite lookup_alter_ne in Hfl' by done.
        specialize (Hcons k' fl' Hfl'). lia.
    + intros k' fl' Hfl'. rewrite Hf in Hfl'.
      destruct (decide (k = k')) as [<-|Hne].
      * rewrite lookup_alter_eq, Hfl in Hfl'. injection Hfl' as <-. simpl. lia.
      * rewrite lookup_alter_ne in Hfl' by done. by apply (Hnn k').
    + intros j k' Hne Hk'. split; [by apply release_other|].
      simpl. rewrite Hf. rewrite lookup_alter_ne; [done|].
      intros ->. congruence.
Qed.

Lemma flight_key_to_mysql tk fid s :
  to_mysql fid = Some s → flight_key tk fid = key_of tk s.
Proof. unfold flight_key. by intros ->. Qed.

Lemma row_key_Some d s k :
  row_key d s = Some k
  ↔ key_of (text_key d) s = Some k ∧ is_Some (flights (data d) !! k).
Proof.
  unfold row_key. destruct (key_of (text_key d) s) as [k'|]; simpl.
  - destruct (flights (data d) !! k') eqn:E; simpl.
    + split; [intros [= <-]; by rewrite E | by intros [[= <-] _]].
    + split; [done | intros [[= <-] [? ?]]; congruence].
  - split; [done | by intros [? _]].
Qed.

Lemma row_key_None d s k fl :
  row_key d s = None → key_of (text_key d) s = Some k →
  flights (data d) !! k = Some fl → False.
Proof.
  intros Hnone Hk Hfl.
  assert (row_key d s = Some k) as H by (apply row_key_Some; eauto).
  congruence.
Qed.

Lemma cexec_text_key i f c d lk tx e :
  cexec i f c d lk tx = Some e → text_key (e_store e) = text_key d.
Proof.
  intros Hex. destruct c; simpl in Hex; unfold refused, replied in Hex;
    cbv zeta in Hex; repeat (case_match; simplify_eq/=); try done;
    by injection Hex as <-.
Qed.

Ltac normalise :=
  destruct_and?;
  repeat match goal with
  | H : ∃ _, _ |- _ => destruct H as (? & ? & ?)
  | H : reservation_row _ _ _ _ _ _ _ = Some _ |- _ =>
      apply reservation_row_Some in H as (? & (? & ? & ?) & ?)
  | H : to_mysql ?fid = Some _, H' : flight_key _ ?fid = _ |- _ =>
      rewrite (flight_key_to_mysql _ _ _ H) in H'
  | H : row_key _ _ = Some _ |- _ => apply row_key_Some in H as [? [? ?]]
  | H : row_key _ ?s = None, Hk : key_of _ ?s = Some ?k,
    Hf : flights _ !! ?k = Some _ |- _ =>
      destruct (row_key_None _ _ _ _ H Hk Hf)
  end;
  simplify_eq/=.

Lemma cexec_sound cap i f c d lk tx e ph ph' :
  cexec i f c d lk tx = Some e →
  next_phase (text_key d) ph c (e_reply e) = Some ph' →
  conserved cap (data d) → nonneg (data d) →
  holds i d lk ph →
  match tx with None => ph = Idle | Some ws => shape ph ws end →
  conserved cap (data (e_store e)) ∧ nonneg (data (e_store e))
  ∧ holds i (e_store e) (e_locks e) ph'
  ∧ match e_txn e with None => ph' = Idle | Some ws => shape ph' ws end
  ∧ keeps i d lk (e_store e) (e_locks e).
Proof.
  intros Hex Hph Hcons Hnn Hholds Htx.
  destruct c; simpl in Hex; unfold refused, replied in Hex.
  all: repeat (case_match; simplify_eq/=).
  all: try (edestruct (select_holding d) as [? (? & ? & ?)]; [eassumption..|]).
  all: try (edestruct (commit_sound cap i d lk) as (? & ? & ?);
            [|eassumption..|]; [done|]).
  all: normalise.
  all: split_and!;
    first
      [ done | apply keeps_refl | apply shape_nil | by apply shape_passenger
      | by apply keeps_release | by apply keeps_lock | by apply lock_mine
      | by apply lookup_insert_eq | by eauto
      | by (eapply holds_locked; [| |eassumption];
            [done | by intros; apply lock_mine])
      | by (apply shape_reservation;
            [ match goal with H : r_flight_id _ = _ |- _ => rewrite H end;
              by apply key_column_key |])
      | by eapply shape_reservation_unkeyed
      | by (match goal with H : key_of _ _ = _ |- _ => rewrite H end;
            first [ apply shape_seat | apply shape_seat_unkeyed ]) ].
Qed.

Lemma holds_keeps i j d lk d' lk' ph :
  keeps i d lk d' lk' → j ≠ i → holds j d lk ph → holds j d' lk' ph.
Proof.
  intros Hkeeps Hne. destruct ph; simpl; [done|..];
    intros [Hk Hfl]; destruct (Hkeeps j k Hne Hk) as [Hk' Hf];
    by rewrite Hf.
Qed.

Lemma holds_release i j d lk ph :
  j ≠ i → holds j d lk ph → holds j d (release i lk) ph.
Proof.
  intros Hne. destruct ph; simpl; [done|..];
    intros [Hk Hfl]; (split; [by apply release_other | done]).
Qed.

Lemma protocol_finished {R} tk ph (p : prog R) :
  finished p = true → protocol tk ph p.
Proof. by destruct p. Qed.

Lemma step_safe {R} cap i (m : machine R) : safe cap m → safe cap (step i m).
Proof.
  intros (Hcons & Hnn & Hall). unfold step.
  destruct (clients m !! i) as [cl|] eqn:Hcl; [|done].
  destruct (code cl) as [r|e0|c k] eqn:Hcode; [done | done |].
  destruct (cexec i (faults cl) c (store m) (locks m) (txn cl)) as [e|] eqn:Hex;
    [|done].
  destruct (Hall i cl Hcl) as (ph & Hproto & Hholds & Htx).
  rewrite Hcode in Hproto. simpl in Hproto. specialize (Hproto (e_reply e)).
  destruct (next_phase (text_key (store m)) ph c (e_reply e)) as [ph'|] eqn:Hph;
    [|done].
  destruct (cexec_sound cap i _ c _ _ _ e ph ph' Hex Hph Hcons Hnn Hholds Htx)
    as (Hcons' & Hnn' & Hholds' & Htx' & Hkeeps).
  pose proof (cexec_text_key _ _ _ _ _ _ _ Hex) as Htk.
  split; [exact Hcons'|]. split; [exact Hnn'|]. cbn [store locks clients].
  intros j cl' Hj. unfold client_ok. rewrite Htk.
  apply list_lookup_insert_Some in Hj as [(<- & <- & _) | [Hne Hj]].
  - destruct (finished (k (e_reply e))) eqn:Hfin.
    + exists Idle. cbn [code txn]. split_and!; [|done|done].
      by apply protocol_finished.
    + exists ph'. cbn [code txn]. done.
  - destruct (Hall j cl' Hj) as (phj & Hpj & Hhj & Htj).
    exists phj. split_and!; [done| |done].
    assert (holds j (e_store e) (e_locks e) phj) as Hh
      by (eapply holds_keeps; eauto).
    destruct (finished (k (e_reply e))); [|done].
    apply holds_release; [auto | done].
Qed.

Lemma run_schedule_safe {R} cap sched (m : machine R) :
  safe cap m → safe cap (run_schedule sched m).
Proof.
  revert m. induction sched as [|i sched IH]; intros m Hsafe; simpl; [done|].
  apply IH. by apply step_safe.
Qed.

Lemma launch_safe {R} cap d (cs : list (prog R * (op → bool))) :
  conserved cap (data d) → nonneg (data d) →
  (∀ c, c ∈ cs → protocol (text_key d) Idle c.1) →
  safe cap (launch d cs).
Proof.
  intros Hcons Hnn Hall. split; [done|]. split; [done|]. simpl.
  intros i cl Hi. apply list_lookup_fmap_Some in Hi as (c & -> & Hc).
  exists Idle. simpl. split_and!; [|done|done].
  apply Hall. by eapply list_elem_of_lookup_2.
Qed.

Ltac discipline :=
  repeat first
    [ progress (unfold lift, issue; simpl)
    | intros [?|?]
    | case_match; simplify_eq/=
    | done ].

Lemma book_protocol tk ff payload : protocol tk Idle (book ff payload).
Proof.
  unfold book. destruct payload; simpl; try done.
  discipline.
  match goal with
  | H : (0 <? _) = false, H' : (_ <=? 0) = false |- _ =>
      apply Z.ltb_ge in H; apply Z.leb_gt in H'; lia
  end.
Qed.

(** The callback does not keep the discipline: it updates the seat of a
    row it has read without locking it. *)
Lemma book_ticket_breaks_protocol tk :
  ¬ protocol tk Idle (book_ticket no_float no_int (PStr "Ann") PNone PNone PNone
                                  (PInt 42) (PStr "1A") (PStr "Economy") PNone).
Proof.
  intros H. simpl in H.
  specialize (H (inr ())). simpl in H.
  specialize (H (inr 1)). simpl in H.
  specialize (H (inr (Some 1))). simpl in H.
  specialize (H (inr 1)). simpl in H. exact H.
Qed.

(** X20.  With every call going through [book], no interleaving and no
    storage failure breaks conservation or drives a counter negative: the
    reservations of a flight never exceed its capacity. *)
Theorem book_never_oversells ff cap d (calls : list (pyval * (op → bool))) sched :
  conserved cap (data d) → nonneg (data d) →
  let m := run_schedule sched
             (launch d (map (λ c, (book ff c.1, c.2)) calls)) in
  conserved cap (data (store m)) ∧ nonneg (data (store m))
  ∧ ∀ k, is_Some (flights (data (store m)) !! k) →
         booked_on k (data (store m)) ≤ cap k.
Proof.
  intros Hcons Hnn m.
  assert (safe cap m) as (Hc & Hn & _).
  { apply run_schedule_safe, launch_safe; [done | done |].
    intros c Hc. apply list_elem_of_fmap in Hc as (x & -> & _).
    apply book_protocol. }
  split; [done|]. split; [done|].
  intros k [fl Hfl]. specialize (Hc k fl Hfl). specialize (Hn k fl Hfl). lia.
Qed.


(** ** A call alone on the machine is the sequential call *)

Lemma mine_release i lk : mine i lk → mine i (release i lk).
Proof.
  intros Hm k j Hk. apply map_lookup_filter_Some in Hk as [Hk _]. eauto.
Qed.

Lemma mine_lock i lk k : mine i lk → mine i (<[k := i]> lk).
Proof.
  intros Hm k' j Hk. destruct (decide (k = k')) as [->|Hne].
  - rewrite lookup_insert_eq in Hk. by injection Hk.
  - rewrite lookup_insert_ne in Hk by done. eauto.
Qed.

Lemma mine_free i lk k : mine i lk → free_for i lk k = true.
Proof.
  intros Hm. unfold free_for. destruct (lk !! k) as [j|] eqn:Hk; [|done].
  rewrite (Hm k j Hk). apply Nat.eqb_refl.
Qed.

Lemma cexec_exec i f c w d lk tx :
  agree w d tx → mine i lk →
  ∃ e, cexec i f c d lk tx = Some e
       ∧ e_reply e = (exec f c w).2
       ∧ agree (exec f c w).1 (e_store e) (e_txn e)
       ∧ mine i (e_locks e).
Proof.
  intros [<- Hcnx] Hm. destruct w as [d cn lg]. simpl in *. subst cn.
  destruct c, tx as [ws|]; simpl; unfold refused, replied;
    repeat (case_match; simplify_eq/=);
    try rewrite (mine_free i lk) in * by done; simplify_eq/=.
  all: eexists; split; [reflexivity|]; simpl.
  all: split_and!; try done.
  all: first
    [ by apply mine_release | by apply mine_lock
    | split; [done|]; simpl; by rewrite apply_writes_snoc ].
Qed.

Lemma run_finished {R} f (p : prog R) w :
  finished p = true → run f p w = (w, (run f p w).2) ∧ p = final (run f p w).2.
Proof. by destruct p. Qed.

Lemma run_schedule_S {R} n i (m : machine R) :
  run_schedule (replicate (S n) i) m = run_schedule (replicate n i) (step i m).
Proof. reflexivity. Qed.

Lemma solo_agrees {R} (p : prog R) f w d lk tx :
  agree w d tx → mine 0 lk →
  ∃ n, let m := run_schedule (replicate n 0%nat)
                  {| store := d; locks := lk;
                     clients := [{| code := p; faults := f; txn := tx |}] |} in
       store m = db (run f p w).1
       ∧ map code (clients m) = [final (run f p w).2].
Proof.
  revert w d lk tx.
  induction p as [r|e|c k IH]; intros w d lk tx Hag Hm.
  - exists 0%nat. simpl. by destruct Hag as [-> _].
  - exists 0%nat. simpl. by destruct Hag as [-> _].
  - destruct (cexec_exec 0 f c w d lk tx Hag Hm) as (e & Hex & Hre & Hag' & Hm').
    simpl. destruct (exec f c w) as [w' a] eqn:Hexec. simpl in *. subst a.
    destruct (finished (k (e_reply e))) eqn:Hfin.
    + exists 1%nat. cbn zeta. rewrite run_schedule_S. simpl.
      unfold step. simpl. rewrite Hex, Hfin. simpl.
      destruct (run_finished f (k (e_reply e)) w' Hfin) as [Hrun Hp].
      rewrite Hrun. simpl. destruct Hag' as [-> _]. by rewrite <- Hp.
    + destruct (IH (e_reply e) w' (e_store e) (e_locks e) (e_txn e) Hag' Hm')
        as [n Hn].
      exists (S n). cbn zeta. rewrite run_schedule_S.
      assert (step 0 {| store := d; locks := lk;
                        clients := [{| code := Do c k; faults := f; txn := tx |}] |}
              = {| store := e_store e; locks := e_locks e;
                   clients := [{| code := k (e_reply e); faults := f;
                                  txn := e_txn e |}] |}) as ->.
      { unfold step. simpl. by rewrite Hex, Hfin. }
      exact Hn.
Qed.

(** A call that runs alone on the machine leaves the database and returns
    the result of the sequential call. *)
Theorem alone_is_sequential {R} (p : prog R) f d :
  ∃ n, let m := run_schedule (replicate n 0%nat) (launch d [(p, f)]) in
       store m = db (run f p (fresh d)).1
       ∧ map code (clients m) = [final (run f p (fresh d)).2].
Proof.
  apply solo_agrees; [done|]. intros k j Hk. by rewrite lookup_empty in Hk.
Qed.

(** * Further properties of the booking handlers *)

Ltac stored :=
  intros _;
  match goal with
  | Hsel : seats_row _ (key_of _ ?s) = Some _, Hle : (_ <=? 0) = false,
    Hpa : passenger_row _ _ _ _ _ = Some ?pa,
    Hre : reservation_row _ _ _ _ _ _ _ = Some ?re,
    Hv : to_mysql _ = Some ?s |- _ =>
      let Hk := fresh "Hk" in
      apply seats_row_Some in Hsel as (k & fl & Hk & Hfl & <-);
      rewrite !Hk;
      pose proof (flight_key_Some _ _ _ _ Hv Hk);
      apply Z.leb_gt in Hle;
      rewrite (passenger_row_Some _ _ _ _ _ _ Hpa) in Hre;
      exists k, fl, pa, re; eexists;
      unfold storage_up;
      split_and!; [reflexivity | eassumption | exact Hfl | exact Hle | ..];
      unfold field; simpl;
      try match goal with
          | H : negb _ || negb _ = false |- _ =>
              apply orb_false_iff in H as [?%negb_false_iff ?%negb_false_iff]
          end;
      repeat match goal with
             | H : truthy _ = _ |- _ => rewrite H
             | H : py_int _ _ = _ |- _ => rewrite H
             | H : py_float _ _ = _ |- _ => rewrite H
             | H : default _ _ = PDict _ |- _ => rewrite H
             end;
      first [ eassumption | reflexivity | by apply andb_true_iff ]
  end.

Lemma book_stores ff fi f payload d :
  let x := run f (book ff payload) (fresh d) in
  succeeded (Http x.2) = true →
  ∃ k fl pa re v,
    requested (HttpBook payload) = inr v ∧ flight_key (text_key d) v = Some k
    ∧ flights (data d) !! k = Some fl ∧ 0 < seats_available fl
    ∧ passenger_of fi (HttpBook payload) (passenger_seq d) = Some pa
    ∧ reservation_of (text_key d) ff (HttpBook payload) (reservation_seq d)
        (passenger_seq d) = Some re
    ∧ db x.1 = sold k pa re d
    ∧ cnx x.1 = None
    ∧ validated (HttpBook payload) = true ∧ storage_up f.
Proof.
  unfold book. destruct payload; simpl; try done.
  symex. stored.
Qed.

Lemma book_ticket_stores ff fi f n a g e fid seat cls pr d :
  let c := UiBook n a g e fid seat cls pr in
  let x := run f (book_ticket ff fi n a g e fid seat cls pr) (fresh d) in
  succeeded (Ui x.2) = true →
  ∃ k fl pa re v,
    requested c = inr v ∧ flight_key (text_key d) v = Some k
    ∧ flights (data d) !! k = Some fl ∧ 0 < seats_available fl
    ∧ passenger_of fi c (passenger_seq d) = Some pa
    ∧ reservation_of (text_key d) ff c (reservation_seq d) (passenger_seq d) = Some re
    ∧ db x.1 = sold k pa re d
    ∧ cnx x.1 = None
    ∧ validated c = true ∧ storage_up f.
Proof.
  unfold book_ticket. simpl.
  symex; stored.
Qed.

Lemma serve_stores ff fi f c d :
  succeeded (serve ff fi f c d).2 = true →
  ∃ k fl pa re v,
    requested c = inr v ∧ flight_key (text_key d) v = Some k
    ∧ flights (data d) !! k = Some fl ∧ 0 < seats_available fl
    ∧ passenger_of fi c (passenger_seq d) = Some pa
    ∧ reservation_of (text_key d) ff c (reservation_seq d) (passenger_seq d) = Some re
    ∧ after ff fi f c d = sold k pa re d
    ∧ cnx (serve ff fi f c d).1 = None
    ∧ validated c = true ∧ storage_up f.
Proof.
  unfold after. destruct c as [payload | n a g e fid seat cls pr]; unfold serve.
  - pose proof (book_stores ff fi f payload d) as H. cbv zeta in H.
    destruct (run f (book ff payload) (fresh d)) as [w r]. exact H.
  - pose proof (book_ticket_stores ff fi f n a g e fid seat cls pr d) as H.
    cbv zeta in H.
    destruct (run f (book_ticket ff fi n a g e fid seat cls pr) (fresh d))
      as [w r]. exact H.
Qed.

Ltac guaranteed :=
  repeat match goal with
  | Hv : to_mysql ?v = Some ?s, H : seats_row _ (key_of _ ?s) = _ |- _ =>
      rewrite (seats_row_find _ _ v s Hv) in H
  | Hf : find_flight _ ?v = _, H : _ <$> find_flight _ ?v = _ |- _ =>
      rewrite Hf in H; simpl in H
  | Hpa : passenger_row _ _ _ _ _ = Some ?p, H : context [passenger_id ?p] |- _ =>
      rewrite (passenger_row_Some _ _ _ _ _ _ Hpa) in H
  | H : (_ <=? 0) = true |- _ => apply Z.leb_le in H
  | H : to_mysql ?v = None, Hf : find_flight _ ?v = Some _ |- _ =>
      unfold find_flight, flight_key in Hf; rewrite H in Hf
  | H : negb _ || negb _ = true |- _ =>
      apply orb_true_iff in H as [H|H]; apply negb_true_iff in H
  end;
  simplify_eq/=; first [ lia | congruence ].

Lemma book_guarantee ff fi f payload d pa re fl :
  validated (HttpBook payload) = true →
  passenger_of fi (HttpBook payload) (passenger_seq d) = Some pa →
  reservation_of (text_key d) ff (HttpBook payload) (reservation_seq d)
    (passenger_seq d) = Some re →
  wanted d (HttpBook payload) = Some fl → 0 < seats_available fl →
  storage_up f →
  (run f (book ff payload) (fresh d)).2 = inr (Json 200 [("status", Lit "booked")]).
Proof.
  intros Hval Hpa Hre Hfl Hpos (H1 & H2 & H3 & H4 & H5 & H6).
  unfold wanted in Hfl.
  destruct payload; simpl in *; try done.
  destruct (default (PDict []) (dict_find d0 "passenger")) eqn:Hp; try done.
  apply andb_true_iff in Hval as [Hname Hfid].
  destruct (py_float ff (default (PFloat 0) (dict_find d0 "price"))) eqn:Hq; [done|].
  unfold book, field in *. simpl. unfold lift. rewrite Hq, Hp. simpl.
  rewrite Hname, Hfid. simpl.
  symex; guaranteed.
Qed.

Lemma book_ticket_guarantee ff fi f n a g e fid seat cls pr d pa re fl :
  let c := UiBook n a g e fid seat cls pr in
  passenger_of fi c (passenger_seq d) = Some pa →
  reservation_of (text_key d) ff c (reservation_seq d) (passenger_seq d) = Some re →
  wanted d c = Some fl → 0 < seats_available fl →
  storage_up f →
  (run f (book_ticket ff fi n a g e fid seat cls pr) (fresh d)).2 = inr (Booked 0).
Proof.
  intros c Hpa Hre Hfl Hpos (H1 & H2 & H3 & H4 & H5 & H6).
  unfold wanted in Hfl. simpl in *.
  unfold book_ticket. simpl.
  symex; guaranteed.
Qed.

(** X1.  A call is booked exactly when it passes its handler's
    required-field check, its parameters convert, the flight it asks for
    exists with a seat left and the storage fails at none of the six
    operations of a booking. *)
Theorem booked_iff ff fi f c d :
  succeeded (serve ff fi f c d).2 = true
  ↔ validated c = true
    ∧ is_Some (passenger_of fi c (passenger_seq d))
    ∧ is_Some (reservation_of (text_key d) ff c (reservation_seq d) (passenger_seq d))
    ∧ (∃ fl, wanted d c = Some fl ∧ 0 < seats_available fl)
    ∧ storage_up f.
Proof.
  split.
  - intros Hok.
    destruct (serve_stores ff fi f c d Hok)
      as (k & fl & pa & re & v & Hreq & Hv & Hfl & Hpos & Hpa & Hre & _ & _ & Hval & Hup).
    split_and!; eauto.
    exists fl. split; [|done]. unfold wanted, find_flight. rewrite Hreq, Hv. done.
  - intros (Hval & [pa Hpa] & [re Hre] & (fl & Hfl & Hpos) & Hup).
    destruct c as [payload | n a g e fid seat cls pr]; unfold serve.
    + pose proof (book_guarantee ff fi f payload d pa re fl Hval Hpa Hre Hfl Hpos Hup) as H.
      destruct (run f (book ff payload) (fresh d)) as [w r]. simpl in *. by subst r.
    + pose proof (book_ticket_guarantee ff fi f n a g e fid seat cls pr d pa re fl
                    Hpa Hre Hfl Hpos Hup) as H.
      destruct (run f (book_ticket ff fi n a g e fid seat cls pr) (fresh d)) as [w r].
      simpl in *. by subst r.
Qed.

Lemma reservation_of_key tk ff c rid pid re k v :
  reservation_of tk ff c rid pid = Some re →
  requested c = inr v → flight_key tk v = Some k → r_flight_id re = SInt k.
Proof.
  unfold reservation_of, flight_key. intros Hre Hreq Hk.
  destruct c as [[] | n a g e fid seat cls pr]; simpl in *; try done.
  - destruct (py_float ff _); [done|]. simplify_eq/=.
    apply reservation_row_Some in Hre as (_ & (s & Hs & ->) & _).
    unfold field in Hs. rewrite Hs in Hk. by apply key_column_key.
  - destruct (truthy pr); [destruct (py_float ff pr); [done|]|]; simplify_eq/=;
      apply reservation_row_Some in Hre as (_ & (s & Hs & ->) & _);
      rewrite Hs in Hk; by apply key_column_key.
Qed.

(** X2.  A call that reports a booking has stored exactly what it was
    given, on the flight it asked for.  The key [k] that its [flight_id]
    equals is the flight that loses the seat and the key the reservation
    holds; the passenger row and the reservation row are the parameter
    tuples of its two inserts, under the next two generated ids; both id
    counters have advanced by one and the connection is closed. *)
Theorem booking_stores_its_parameters ff fi f c d :
  succeeded (serve ff fi f c d).2 = true →
  ∃ k fl pa re,
    wanted_key d c = Some k ∧ flights (data d) !! k = Some fl
    ∧ 0 < seats_available fl
    ∧ passenger_of fi c (passenger_seq d) = Some pa
    ∧ reservation_of (text_key d) ff c (reservation_seq d) (passenger_seq d) = Some re
    ∧ r_flight_id re = SInt k
    ∧ after ff fi f c d = sold k pa re d
    ∧ cnx (serve ff fi f c d).1 = None.
Proof.
  intros Hok.
  destruct (serve_stores ff fi f c d Hok)
    as (k & fl & pa & re & v & Hreq & Hv & Hfl & Hpos & Hpa & Hre & Hdb & Hcnx & _).
  exists k, fl, pa, re. split_and!; try done.
  - unfold wanted_key. by rewrite Hreq.
  - by eapply reservation_of_key.
Qed.

Lemma booking_stores_its_parameters_witness :
  succeeded (serve no_float no_int no_fault (jane_ui (PStr "42"))
               (one_flight 42 10)).2 = true
  ∧ ∃ k fl pa re,
      wanted_key (one_flight 42 10) (jane_ui (PStr "42")) = Some k
      ∧ flights (data (one_flight 42 10)) !! k = Some fl
      ∧ 0 < seats_available fl
      ∧ passenger_of no_int (jane_ui (PStr "42")) (passenger_seq (one_flight 42 10))
        = Some pa
      ∧ reservation_of decimal_text no_float (jane_ui (PStr "42"))
          (reservation_seq (one_flight 42 10)) (passenger_seq (one_flight 42 10))
        = Some re
      ∧ r_flight_id re = SInt k
      ∧ after no_float no_int no_fault (jane_ui (PStr "42")) (one_flight 42 10)
        = sold k pa re (one_flight 42 10)
      ∧ cnx (serve no_float no_int no_fault (jane_ui (PStr "42"))
               (one_flight 42 10)).1 = None.
Proof.
  split; [reflexivity|].
  apply (booking_stores_its_parameters no_float no_int no_fault (jane_ui (PStr "42"))
           (one_flight 42 10)).
  reflexivity.
Defined.

Lemma reservation_row_fields tk id fid pid seat cls pr r :
  reservation_row tk id fid pid seat cls pr = Some r →
  to_mysql pid = Some (r_passenger_id r) ∧ to_mysql seat = Some (seat_number r)
  ∧ to_mysql cls = Some (travel_class r).
Proof.
  unfold reservation_row. intros H.
  destruct (to_mysql fid), (to_mysql pid), (to_mysql seat), (to_mysql cls),
    (to_mysql pr); simplify_eq/=. done.
Qed.

Lemma passenger_row_fields id n a g e row :
  passenger_row id n a g e = Some row →
  to_mysql n = Some (full_name row) ∧ to_mysql a = Some (age row)
  ∧ to_mysql g = Some (gender row) ∧ to_mysql e = Some (email row).
Proof.
  unfold passenger_row. intros H.
  destruct (to_mysql n), (to_mysql a), (to_mysql g), (to_mysql e);
    simplify_eq/=. done.
Qed.

(** X3.  The travel class stored by a successful booking is "Economy" only
    when the HTTP payload has no [travel_class] key; a key that is present,
    even with [null], and the class argument of the callback are stored as
    supplied. *)
Theorem stored_travel_class ff fi f c d :
  succeeded (serve ff fi f c d).2 = true →
  ∃ re, reservations (data (after ff fi f c d)) = reservations (data d) ++ [re]
        ∧ class_rule c (travel_class re).
Proof.
  intros Hok.
  destruct (serve_stores ff fi f c d Hok)
    as (k & fl & pa & re & v & Hreq & Hv & Hfl & Hpos & Hpa & Hre & Hdb & _).
  exists re. rewrite Hdb. split; [done|].
  unfold reservation_of in Hre.
  destruct c as [[] | n a g e fid seat cls pr]; simpl in *; try done.
  - destruct (py_float ff _); [done|].
    apply reservation_row_fields in Hre as (_ & _ & Hcls).
    destruct (dict_find d0 "travel_class"); simpl in Hcls; congruence.
  - destruct (truthy pr); [destruct (py_float ff pr); [done|]|];
      by apply reservation_row_fields in Hre as (_ & _ & Hcls).
Qed.

Lemma stored_travel_class_witness :
  succeeded (serve no_float no_int no_fault
               (HttpBook (PDict [("passenger", PDict [("full_name", PStr "Jo")]);
                                 ("flight_id", PInt 42); ("travel_class", PNone)]))
               (one_flight 42 10)).2 = true
  ∧ ∃ re, reservations (data (after no_float no_int no_fault
               (HttpBook (PDict [("passenger", PDict [("full_name", PStr "Jo")]);
                                 ("flight_id", PInt 42); ("travel_class", PNone)]))
               (one_flight 42 10)))
          = reservations (data (one_flight 42 10)) ++ [re]
          ∧ class_rule (HttpBook (PDict [("passenger", PDict [("full_name", PStr "Jo")]);
                                         ("flight_id", PInt 42); ("travel_class", PNone)]))
                       (travel_class re).
Proof.
  split; [reflexivity|].
  apply (stored_travel_class no_float no_int no_fault _ (one_flight 42 10)).
  reflexivity.
Defined.

(** X4.  The age stored with the passenger of a successful booking: as
    supplied through the view; through the callback [int(age)], and NULL
    for every falsy age, 0 included. *)
Theorem stored_age ff fi f c d :
  succeeded (serve ff fi f c d).2 = true →
  ∃ pa, passengers (data (after ff fi f c d)) = passengers (data d) ++ [pa]
        ∧ age_rule fi c (age pa).
Proof.
  intros Hok.
  destruct (serve_stores ff fi f c d Hok)
    as (k & fl & pa & re & v & Hreq & Hv & Hfl & Hpos & Hpa & Hre & Hdb & _).
  exists pa. rewrite Hdb. split; [done|].
  unfold passenger_of in Hpa.
  destruct c as [[] | n a g e fid seat cls pr]; simpl in *; try done.
  - destruct (default (PDict []) (dict_find d0 "passenger")); try done.
    by apply passenger_row_fields in Hpa as (_ & Ha & _).
  - destruct (truthy a).
    + destruct (py_int fi a) as [|z]; [done|]. exists z. split; [done|].
      apply passenger_row_fields in Hpa as (_ & Ha & _). by injection Ha.
    + apply passenger_row_fields in Hpa as (_ & Ha & _). by injection Ha.
Qed.

Lemma stored_age_witness :
  succeeded (serve no_float no_int no_fault
               (UiBook (PStr "Baby") (PInt 0) PNone PNone (PInt 42) PNone PNone PNone)
               (one_flight 42 10)).2 = true
  ∧ ∃ pa, passengers (data (after no_float no_int no_fault
               (UiBook (PStr "Baby") (PInt 0) PNone PNone (PInt 42) PNone PNone PNone)
               (one_flight 42 10)))
          = passengers (data (one_flight 42 10)) ++ [pa]
          ∧ age_rule no_int
              (UiBook (PStr "Baby") (PInt 0) PNone PNone (PInt 42) PNone PNone PNone)
              (age pa).
Proof.
  split; [reflexivity|].
  apply (stored_age no_float no_int no_fault _ (one_flight 42 10)).
  reflexivity.
Defined.

(** ** When a call is refused *)

Ltac justified :=
  intros;
  repeat match goal with
  | Hv : to_mysql ?v = Some ?s, H : seats_row _ (key_of _ ?s) = _ |- _ =>
      rewrite (seats_row_find _ _ v s Hv) in H
  | H : (_ <=? 0) = true |- _ => apply Z.leb_le in H
  | H : _ <$> ?o = _ |- _ => destruct o eqn:?; simpl in H
  end;
  simplify_eq/=; eauto.

Lemma book_refusals ff f payload d :
  let x := run f (book ff payload) (fresh d) in
  (Http x.2 = not_found (HttpBook payload) → wanted d (HttpBook payload) = None)
  ∧ (Http x.2 = sold_out (HttpBook payload) →
     ∃ fl, wanted d (HttpBook payload) = Some fl ∧ seats_available fl ≤ 0).
Proof.
  unfold book, wanted. destruct payload; simpl; try done.
  symex; split; justified.
Qed.

Lemma book_ticket_refusals ff fi f n a g e fid seat cls pr d :
  let c := UiBook n a g e fid seat cls pr in
  let x := run f (book_ticket ff fi n a g e fid seat cls pr) (fresh d) in
  (Ui x.2 = not_found c → wanted d c = None)
  ∧ (Ui x.2 = sold_out c → ∃ fl, wanted d c = Some fl ∧ seats_available fl ≤ 0).
Proof.
  unfold book_ticket, wanted. simpl.
  symex; split; justified.
Qed.

Lemma serve_refusals ff fi f c d :
  ((serve ff fi f c d).2 = not_found c → wanted d c = None)
  ∧ ((serve ff fi f c d).2 = sold_out c →
     ∃ fl, wanted d c = Some fl ∧ seats_available fl ≤ 0).
Proof.
  destruct c as [payload | n a g e fid seat cls pr]; unfold serve.
  - pose proof (book_refusals ff f payload d) as H. cbv zeta in H.
    destruct (run f (book ff payload) (fresh d)) as [w r]. exact H.
  - pose proof (book_ticket_refusals ff fi f n a g e fid seat cls pr d) as H.
    cbv zeta in H.
    destruct (run f (book_ticket ff fi n a g e fid seat cls pr) (fresh d))
      as [w r]. exact H.
Qed.

(** X5.  The not-found answer is only given for a flight that is not in
    the flights table. *)
Theorem not_found_only_when_missing ff fi f c d :
  (serve ff fi f c d).2 = not_found c → wanted d c = None.
Proof. apply serve_refusals. Qed.

Lemma not_found_only_when_missing_witness :
  (serve no_float no_int no_fault (jane_ui (PInt 7)) (one_flight 42 10)).2
  = not_found (jane_ui (PInt 7))
  ∧ wanted (one_flight 42 10) (jane_ui (PInt 7)) = None.
Proof.
  split; [reflexivity|].
  apply (not_found_only_when_missing no_float no_int no_fault (jane_ui (PInt 7))
           (one_flight 42 10)).
  reflexivity.
Defined.

(** X6.  The no-seats answer is only given for a flight that exists with
    [seats_available <= 0]. *)
Theorem sold_out_only_when_empty ff fi f c d :
  (serve ff fi f c d).2 = sold_out c →
  ∃ fl, wanted d c = Some fl ∧ seats_available fl ≤ 0.
Proof. apply serve_refusals. Qed.

Lemma sold_out_only_when_empty_witness :
  (serve no_float no_int no_fault (HttpBook (jane (PFloat 150))) (one_flight 42 0)).2
  = sold_out (HttpBook (jane (PFloat 150)))
  ∧ ∃ fl, wanted (one_flight 42 0) (HttpBook (jane (PFloat 150))) = Some fl
          ∧ seats_available fl ≤ 0.
Proof.
  split; [reflexivity|].
  apply (sold_out_only_when_empty no_float no_int no_fault
           (HttpBook (jane (PFloat 150))) (one_flight 42 0)).
  reflexivity.
Defined.

(** ** The connection *)

Ltac connected :=
  simpl;
  first
    [ done
    | by left
    | by (right; split; [done | eauto])
    | by (right; split; [in_log | eauto]) ].

Lemma book_connection ff f payload d :
  let x := run f (book ff payload) (fresh d) in connection_rule x.1 (Http x.2).
Proof.
  unfold book. destruct payload; simpl; try by left.
  symex; connected.
Qed.

Lemma book_ticket_connection ff fi f n a g e fid seat cls pr d :
  let x := run f (book_ticket ff fi n a g e fid seat cls pr) (fresh d) in
  connection_rule x.1 (Ui x.2).
Proof.
  unfold book_ticket. simpl.
  symex; connected.
Qed.

(** X7.  No answer leaves a connection open, except the error return of
    the callback: the view has closed its connection, or never opened one,
    whenever it answers, and lets an exception out with the connection open
    only when a rollback failed; the callback lets no exception out, closes
    the connection on a booking and on its two refusals, and on its error
    return leaves open whatever connection it had made. *)
Theorem connection_after_call ff fi f c d :
  connection_rule (serve ff fi f c d).1 (serve ff fi f c d).2.
Proof.
  destruct c as [payload | n a g e fid seat cls pr]; unfold serve.
  - pose proof (book_connection ff f payload d) as H. cbv zeta in H.
    destruct (run f (book ff payload) (fresh d)) as [w r]. exact H.
  - pose proof (book_ticket_connection ff fi f n a g e fid seat cls pr d) as H.
    cbv zeta in H.
    destruct (run f (book_ticket ff fi n a g e fid seat cls pr) (fresh d))
      as [w r]. exact H.
Qed.

(** ** Invariants of the tables *)

Lemma exec_seq_mono f c w :
  passenger_seq (db w) ≤ passenger_seq (db (exec f c w).1)
  ∧ reservation_seq (db w) ≤ reservation_seq (db (exec f c w).1).
Proof. destruct c; simpl; repeat case_match; simpl; lia. Qed.

Lemma run_seq_mono {R} f (p : prog R) w :
  passenger_seq (db w) ≤ passenger_seq (db (run f p w).1)
  ∧ reservation_seq (db w) ≤ reservation_seq (db (run f p w).1).
Proof.
  revert w. induction p as [r|e|c k IH]; intros w; simpl; [lia | lia |].
  pose proof (exec_seq_mono f c w) as Hc.
  destruct (exec f c w) as [w' a]. simpl in Hc.
  specialize (IH a w'). lia.
Qed.

Lemma after_seq_mono ff fi f c d :
  passenger_seq d ≤ passenger_seq (after ff fi f c d)
  ∧ reservation_seq d ≤ reservation_seq (after ff fi f c d).
Proof.
  unfold after. destruct c as [payload | n a g e fid seat cls pr]; unfold serve.
  - pose proof (run_seq_mono f (book ff payload) (fresh d)) as H.
    by destruct (run f (book ff payload) (fresh d)).
  - pose proof (run_seq_mono f (book_ticket ff fi n a g e fid seat cls pr) (fresh d)) as H.
    by destruct (run f (book_ticket ff fi n a g e fid seat cls pr) (fresh d)).
Qed.

Lemma passenger_of_id fi c id pa : passenger_of fi c id = Some pa → passenger_id pa = id.
Proof.
  unfold passenger_of. intros H.
  repeat case_match; try done; by eapply passenger_row_Some.
Qed.

Lemma reservation_of_refs tk ff c rid pid re :
  reservation_of tk ff c rid pid = Some re →
  reservation_id re = rid ∧ r_passenger_id re = SInt pid.
Proof.
  unfold reservation_of. intros H.
  repeat case_match; try done;
    pose proof (reservation_row_Some _ _ _ _ _ _ _ _ H) as (Hid & _ & _);
    pose proof (reservation_row_fields _ _ _ _ _ _ _ _ H) as (Hpid & _);
    simpl in Hpid; simplify_eq/=; done.
Qed.

(** One call: nothing committed, or one booking with fresh ids that
    reference each other and the flight. *)
Lemma after_cases ff fi f c d :
  (data (after ff fi f c d) = data d)
  ∨ ∃ k fl pa re,
      flights (data d) !! k = Some fl
      ∧ passenger_id pa = passenger_seq d ∧ reservation_id re = reservation_seq d
      ∧ r_passenger_id re = SInt (passenger_seq d) ∧ r_flight_id re = SInt k
      ∧ after ff fi f c d = sold k pa re d.
Proof.
  destruct (succeeded (serve ff fi f c d).2) eqn:Hok.
  - right.
    destruct (serve_stores ff fi f c d Hok)
      as (k & fl & pa & re & v & Hreq & Hv & Hfl & Hpos & Hpa & Hre & Hdb & _).
    apply passenger_of_id in Hpa.
    pose proof (reservation_of_key _ _ _ _ _ _ _ _ Hre Hreq Hv) as Hrf.
    apply reservation_of_refs in Hre as (Hrid & Hrp).
    exists k, fl, pa, re. split_and!; done.
  - left.
    destruct (serve_summary ff fi f c d)
      as [Hd _ _ | ? ? ? ? ? ? ? ? ? ? ? ? ? ? ? ? ? Hc];
      [done|]. apply confirms_succeeded in Hc. congruence.
Qed.

Lemma after_keyed ff fi f c d : keyed d → keyed (after ff fi f c d).
Proof.
  intros (Hp & Hr & Hnp & Hnr).
  destruct (after_seq_mono ff fi f c d) as [Hmp Hmr].
  destruct (after_cases ff fi f c d)
    as [Hd | (k & fl & pa & re & _ & Hpid & Hrid & _ & _ & Hdb)].
  - unfold keyed. rewrite Hd. split_and!; try done.
    + intros p Hin. specialize (Hp p Hin). lia.
    + intros r Hin. specialize (Hr r Hin). lia.
  - rewrite Hdb. unfold keyed, sold, booked. simpl. split_and!.
    + intros p [Hin | ->%list_elem_of_singleton]%elem_of_app; [|lia].
      specialize (Hp p Hin). lia.
    + intros r [Hin | ->%list_elem_of_singleton]%elem_of_app; [|lia].
      specialize (Hr r Hin). lia.
    + rewrite fmap_app. apply NoDup_app. split_and!; [done | | apply NoDup_singleton].
      intros x Hx [= ->]%list_elem_of_singleton.
      apply list_elem_of_fmap in Hx as (p & Heq & Hin). specialize (Hp p Hin). lia.
    + rewrite fmap_app. apply NoDup_app. split_and!; [done | | apply NoDup_singleton].
      intros x Hx [= ->]%list_elem_of_singleton.
      apply list_elem_of_fmap in Hx as (r & Heq & Hin). specialize (Hr r Hin). lia.
Qed.

Lemma after_referenced ff fi f c d :
  referenced (data d) → referenced (data (after ff fi f c d)).
Proof.
  intros Href.
  destruct (after_cases ff fi f c d)
    as [Hd | (k & fl & pa & re & Hfl & Hpid & Hrid & Hrp & Hrf & Hdb)].
  - by rewrite Hd.
  - rewrite Hdb. unfold sold, booked, referenced. simpl.
    intros r [Hin | ->%list_elem_of_singleton]%elem_of_app.
    + destruct (Href r Hin) as [(p & Hp & Hpr) (k' & Hk' & Hsome)]. split.
      * exists p. split; [|done]. apply elem_of_app. by left.
      * exists k'. split; [done|].
        destruct (decide (k = k')) as [->|Hne].
        -- rewrite lookup_alter_eq. destruct Hsome as [x ->]. by eexists.
        -- by rewrite lookup_alter_ne.
    + split.
      * exists pa. split; [|congruence]. apply elem_of_app. right.
        by apply list_elem_of_singleton.
      * exists k. split; [done|]. rewrite lookup_alter_eq, Hfl. by eexists.
Qed.

(** X8.  Generated identifiers stay unique: along any sequence of calls, no
    two passengers and no two reservations share an id, and every stored id
    is below its counter. *)
Theorem ids_stay_unique ff fi cs d : keyed d → keyed (serve_all ff fi cs d).
Proof.
  revert d. induction cs as [|[f c] cs IH]; intros d Hk; simpl; [done|].
  by apply IH, after_keyed.
Qed.

Lemma one_flight_keyed k n : keyed (one_flight k n).
Proof.
  unfold keyed. simpl. split_and!; try apply NoDup_nil_2;
    intros x Hx; by apply elem_of_nil in Hx.
Qed.

Lemma ids_stay_unique_witness :
  keyed (one_flight 42 10)
  ∧ keyed (serve_all no_float no_int
             [(no_fault, jane_ui (PInt 42)); (fail_at OpCommit, jane_ui (PInt 42));
              (no_fault, HttpBook (jane (PFloat 150)))]
             (one_flight 42 10)).
Proof.
  split; [apply one_flight_keyed|].
  apply (ids_stay_unique no_float no_int _ (one_flight 42 10)).
  apply one_flight_keyed.
Defined.

(** X9.  No orphan: along any sequence of calls, every reservation
    references a stored passenger and a stored flight. *)
Theorem reservations_stay_referenced ff fi cs d :
  referenced (data d) → referenced (data (serve_all ff fi cs d)).
Proof.
  revert d. induction cs as [|[f c] cs IH]; intros d Hr; simpl; [done|].
  by apply IH, after_referenced.
Qed.

Lemma one_flight_referenced k n : referenced (data (one_flight k n)).
Proof. intros r Hr. by apply elem_of_nil in Hr. Qed.

Lemma reservations_stay_referenced_witness :
  referenced (data (one_flight 42 10))
  ∧ referenced (data (serve_all no_float no_int
                        [(no_fault, jane_ui (PInt 42));
                         (no_fault, HttpBook (jane (PFloat 150)))]
                        (one_flight 42 10))).
Proof.
  split; [apply one_flight_referenced|].
  apply (reservations_stay_referenced no_float no_int _ (one_flight 42 10)).
  apply one_flight_referenced.
Defined.

(** X10.  Passengers and reservations are created together: along any
    sequence of calls the two tables grow by the same number of rows. *)
Theorem passengers_grow_with_reservations ff fi cs d :
  let d' := serve_all ff fi cs d in
  (length (passengers (data d')) - length (passengers (data d)))%nat
  = (length (reservations (data d')) - length (reservations (data d)))%nat
  ∧ (length (passengers (data d)) ≤ length (passengers (data d')))%nat
  ∧ (length (reservations (data d)) ≤ length (reservations (data d')))%nat.
Proof.
  revert d. induction cs as [|[f c] cs IH]; intros d; simpl; [lia|].
  specialize (IH (after ff fi f c d)). simpl in IH.
  destruct (after_cases ff fi f c d)
    as [Hd | (k & fl & pa & re & _ & _ & _ & _ & _ & Hdb)].
  - rewrite Hd in IH. exact IH.
  - assert (passengers (data (after ff fi f c d)) = passengers (data d) ++ [pa]) as Hp
      by (by rewrite Hdb).
    assert (reservations (data (after ff fi f c d)) = reservations (data d) ++ [re])
      as Hr by (by rewrite Hdb).
    rewrite Hp, Hr, !length_app in IH. simpl in IH. lia.
Qed.

(** ** The reservations listing *)

Lemma filter_unique_passenger (r : reservation) (ps : list passenger) p :
  NoDup (passenger_id <$> ps) → p ∈ ps →
  r_passenger_id r = SInt (passenger_id p) →
  List.filter (joins_passenger r) ps = [p].
Proof.
  intros Hnd Hin Hr. unfold joins_passenger. rewrite Hr.
  induction ps as [|q ps IH]; [by apply elem_of_nil in Hin|].
  rewrite fmap_cons in Hnd. apply NoDup_cons in Hnd as [Hq Hnd].
  apply elem_of_cons in Hin as [<-|Hin]; simpl.
  - rewrite Z.eqb_refl. f_equal.
    clear IH. induction ps as [|q ps IH]; [done|]. simpl.
    rewrite fmap_cons in Hq, Hnd. apply not_elem_of_cons in Hq as [Hne Hq].
    apply NoDup_cons in Hnd as [_ Hnd].
    apply Z.eqb_neq in Hne. rewrite Hne. by apply IH.
  - assert (passenger_id p ≠ passenger_id q) as Hne.
    { intros Heq. apply Hq. rewrite <- Heq. by apply list_elem_of_fmap_2. }
    apply Z.eqb_neq in Hne. rewrite Hne. by apply IH.
Qed.

Lemma rows_of_referenced (d : database) (rs : list reservation) :
  NoDup (passenger_id <$> passengers (data d)) →
  (∀ r, r ∈ rs →
    (∃ p, p ∈ passengers (data d) ∧ r_passenger_id r = SInt (passenger_id p))
    ∧ (∃ k, r_flight_id r = SInt k ∧ is_Some (flights (data d) !! k))) →
  v_row <$> (r ← rs;
             p ← List.filter (joins_passenger r) (passengers (data d));
             match key_of (text_key d) (r_flight_id r)
                   ≫= (λ k, flights (data d) !! k) with
             | Some fl => [{| v_row := r; v_passenger_name := full_name p;
                              v_flight_number := flight_number fl |}]
             | None => []
             end) = rs.
Proof.
  intros Hnd. induction rs as [|r rs IH]; intros Href; [done|].
  rewrite bind_cons, fmap_app, IH.
  - destruct (Href r) as [(p & Hp & Hrp) (k & Hk & [fl Hfl])]; [by left|].
    rewrite (filter_unique_passenger r _ p Hnd Hp Hrp).
    rewrite Hk. simpl. rewrite Hfl. done.
  - intros r' Hr'. apply Href. by right.
Qed.

(** X11.  On tables with unique passenger ids and no orphan reservation --
    which every sequence of calls keeps -- the listing shows every
    reservation exactly once. *)
Theorem listing_is_complete ff fi cs d :
  keyed d → referenced (data d) →
  v_row <$> reservations_rows (serve_all ff fi cs d)
  ≡ₚ reservations (data (serve_all ff fi cs d)).
Proof.
  intros Hk Hr.
  assert (keyed (serve_all ff fi cs d) ∧ referenced (data (serve_all ff fi cs d)))
    as [(_ & _ & Hnd & _) Href].
  { revert d Hk Hr. induction cs as [|[f c] cs IH]; intros d Hk Hr; simpl; [done|].
    apply IH; [by apply after_keyed | by apply after_referenced]. }
  unfold reservations_rows. by rewrite rows_of_referenced.
Qed.

Lemma listing_is_complete_witness :
  keyed (one_flight 42 10) ∧ referenced (data (one_flight 42 10))
  ∧ v_row <$> reservations_rows
               (serve_all no_float no_int
                  [(no_fault, jane_ui (PInt 42)); (no_fault, HttpBook (jane (PFloat 150)))]
                  (one_flight 42 10))
    ≡ₚ reservations (data (serve_all no_float no_int
                  [(no_fault, jane_ui (PInt 42)); (no_fault, HttpBook (jane (PFloat 150)))]
                  (one_flight 42 10))).
Proof.
  split; [apply one_flight_keyed|]. split; [apply one_flight_referenced|].
  apply (listing_is_complete no_float no_int _ (one_flight 42 10));
    [apply one_flight_keyed | apply one_flight_referenced].
Defined.

Lemma reservations_rows_intro d r p k fl :
  r ∈ reservations (data d) → p ∈ passengers (data d) →
  r_passenger_id r = SInt (passenger_id p) →
  r_flight_id r = SInt k → flights (data d) !! k = Some fl →
  {| v_row := r; v_passenger_name := full_name p;
     v_flight_number := flight_number fl |} ∈ reservations_rows d.
Proof.
  intros Hr Hp Hrp Hrf Hfl. unfold reservations_rows.
  apply list_elem_of_bind. exists r. split; [|done].
  apply list_elem_of_bind. exists p. split.
  - rewrite Hrf. simpl. rewrite Hfl. by apply list_elem_of_singleton.
  - apply list_elem_of_In, filter_In. split; [by apply list_elem_of_In|].
    unfold joins_passenger. rewrite Hrp. apply Z.eqb_refl.
Qed.

(** X12.  A booking shows in the listing: after a successful call the
    listing has a row for the new reservation, which holds the key [k] the
    call's [flight_id] equals, with the passenger name the call stored and
    the number of flight [k]. *)
Theorem booking_is_listed ff fi f c d :
  succeeded (serve ff fi f c d).2 = true →
  ∃ k fl pa re,
    wanted_key d c = Some k ∧ flights (data d) !! k = Some fl
    ∧ passenger_of fi c (passenger_seq d) = Some pa
    ∧ reservation_of (text_key d) ff c (reservation_seq d) (passenger_seq d) = Some re
    ∧ r_flight_id re = SInt k
    ∧ {| v_row := re; v_passenger_name := full_name pa;
         v_flight_number := flight_number fl |}
      ∈ reservations_rows (after ff fi f c d).
Proof.
  intros Hok.
  destruct (serve_stores ff fi f c d Hok)
    as (k & fl & pa & re & v & Hreq & Hv & Hfl & Hpos & Hpa & Hre & Hdb & _).
  pose proof (passenger_of_id _ _ _ _ Hpa) as Hpid.
  pose proof (reservation_of_key _ _ _ _ _ _ _ _ Hre Hreq Hv) as Hrf.
  pose proof (reservation_of_refs _ _ _ _ _ _ Hre) as (_ & Hrp).
  exists k, fl, pa, re. split_and!; try done.
  { unfold wanted_key. by rewrite Hreq. }
  change (flight_number fl) with (flight_number (take_seat fl)).
  rewrite Hdb. apply (reservations_rows_intro _ re pa k); simpl.
  - apply elem_of_app. right. by apply list_elem_of_singleton.
  - apply elem_of_app. right. by apply list_elem_of_singleton.
  - congruence.
  - done.
  - by rewrite lookup_alter_eq, Hfl.
Qed.

Lemma booking_is_listed_witness :
  succeeded (serve no_float no_int no_fault (HttpBook (jo (PStr "42")))
               (one_flight 42 10)).2 = true
  ∧ ∃ k fl pa re,
      wanted_key (one_flight 42 10) (HttpBook (jo (PStr "42"))) = Some k
      ∧ flights (data (one_flight 42 10)) !! k = Some fl
      ∧ passenger_of no_int (HttpBook (jo (PStr "42")))
          (passenger_seq (one_flight 42 10)) = Some pa
      ∧ reservation_of decimal_text no_float (HttpBook (jo (PStr "42")))
          (reservation_seq (one_flight 42 10)) (passenger_seq (one_flight 42 10))
        = Some re
      ∧ r_flight_id re = SInt k
      ∧ {| v_row := re; v_passenger_name := full_name pa;
           v_flight_number := flight_number fl |}
        ∈ reservations_rows (after no_float no_int no_fault
                               (HttpBook (jo (PStr "42"))) (one_flight 42 10)).
Proof.
  split; [reflexivity|].
  apply (booking_is_listed no_float no_int no_fault (HttpBook (jo (PStr "42")))
           (one_flight 42 10)).
  reflexivity.
Defined.

(** ** The flight search *)

(** X13.  Whatever the arguments, the statement has exactly as many
    placeholders as there are parameters. *)
Theorem search_placeholders_match frm to date :
  placeholders (search_query frm to date).1 = length (search_query frm to date).2.
Proof.
  destruct frm as [[|c1 s1]|], to as [[|c2 s2]|], date as [[|c3 s3]|];
    vm_compute; reflexivity.
Qed.

Lemma same_presence {A B} (x : option A) (y : option B) :
  (is_Some x ↔ is_Some y) →
  (x = None ∧ y = None) ∨ (∃ a b, x = Some a ∧ y = Some b).
Proof.
  intros [H H']. destruct x as [a|], y as [b|]; eauto.
  - destruct H as [? ?]; [eauto | done].
  - destruct H' as [? ?]; [eauto | done].
Qed.

(** X14.  The statement text depends only on which arguments are given,
    never on their values: an argument reaches the storage as a parameter
    only, and an empty argument counts as absent. *)
Theorem search_text_ignores_values frm to date frm' to' date' :
  (is_Some (given frm) ↔ is_Some (given frm')) →
  (is_Some (given to) ↔ is_Some (given to')) →
  (is_Some (given date) ↔ is_Some (given date')) →
  (search_query frm to date).1 = (search_query frm' to' date').1.
Proof.
  intros H1 H2 H3. unfold search_query.
  destruct (same_presence _ _ H1) as [[-> ->] | (? & ? & -> & ->)];
    destruct (same_presence _ _ H2) as [[-> ->] | (? & ? & -> & ->)];
    destruct (same_presence _ _ H3) as [[-> ->] | (? & ? & -> & ->)];
    reflexivity.
Qed.

Lemma search_text_ignores_values_witness :
  (is_Some (given (Some "DEL")) ↔ is_Some (given (Some "' OR 1=1 --")))
  ∧ (is_Some (given (Some EmptyString)) ↔ is_Some (given None))
  ∧ (is_Some (given None) ↔ is_Some (given None))
  ∧ (search_query (Some "DEL") (Some EmptyString) None).1
    = (search_query (Some "' OR 1=1 --") None None).1.
Proof.
  assert (is_Some (given (Some "DEL")) ↔ is_Some (given (Some "' OR 1=1 --"))) as H1
    by (split; intros _; by eexists).
  assert (is_Some (given (Some EmptyString)) ↔ is_Some (@given None)) as H2 by done.
  assert (is_Some (given None) ↔ is_Some (given None)) as H3 by done.
  split; [exact H1|]. split; [exact H2|]. split; [exact H3|].
  exact (search_text_ignores_values _ _ _ _ _ _ H1 H2 H3).
Defined.

Lemma search_row_in (airlines : gmap Z string) (P : Z * flight → bool)
    (d : database) (row : flight_view) :
  row ∈ view_flight airlines <$> List.filter P (map_to_list (flights (data d)))
  ↔ flights (data d) !! f_id row = Some (f_row row)
    ∧ f_airline_name row = airline_id (f_row row) ≫= (airlines !!.)
    ∧ P (f_id row, f_row row) = true.
Proof.
  split.
  - intros ([k fl] & -> & Hin)%list_elem_of_fmap.
    apply list_elem_of_In, filter_In in Hin as [Hin HP].
    apply list_elem_of_In, elem_of_map_to_list in Hin. done.
  - intros (Hfl & Ha & HP). apply list_elem_of_fmap.
    exists (f_id row, f_row row). split.
    + destruct row. simpl in *. by subst.
    + apply list_elem_of_In, filter_In. split; [|done].
      by apply list_elem_of_In, elem_of_map_to_list.
Qed.

(** X15.  The search returns exactly the flights that meet every filter that
    is given (present and not empty), each with its airline name; a filter
    that is absent or empty restricts nothing. *)
Theorem search_selects_matching text_eq on_date airlines frm to date d :
  ∃ rows,
    search_flights text_eq on_date airlines frm to date d = inr rows
    ∧ ∀ row, row ∈ rows ↔
        flights (data d) !! f_id row = Some (f_row row)
        ∧ f_airline_name row = airline_id (f_row row) ≫= (airlines !!.)
        ∧ (∀ v, given frm = Some v → text_eq (departure_airport (f_row row)) v = true)
        ∧ (∀ v, given to = Some v → text_eq (arrival_airport (f_row row)) v = true)
        ∧ (∀ v, given date = Some v →
                on_date (departure_datetime (f_row row)) v = true).
Proof.
  unfold search_flights, search_query.
  destruct (given frm) as [a|], (given to) as [b|], (given date) as [c|];
    cbv beta iota zeta; unfold execute_search;
    match goal with
    | |- context [read_search ?q] =>
        let r := eval vm_compute in (read_search q) in
        change (read_search q) with r
    end;
    cbn [length app Nat.eqb]; eexists; (split; [reflexivity|]);
    intros row; rewrite search_row_in; unfold meets; simpl;
    rewrite ?andb_true_iff;
    intuition (simplify_eq; eauto).
Qed.

(** ** The live-flights snapshot *)

Section LiveProperties.

Variable strip : string → string.
Variable isoformat : Z → option string.
Variable pattern : string → option (string → bool).
Variable int_of_str : string → option Z.

Lemma make_rows_length states rows :
  make_rows strip isoformat states = inr rows → length rows = length states.
Proof.
  revert rows; induction states as [|s rest IH]; intros rows H; simpl in H.
  - by simplify_eq.
  - destruct (make_row strip isoformat s); [done|].
    destruct (make_rows strip isoformat rest); [done|].
    simplify_eq/=. f_equal. by apply IH.
Qed.

Lemma make_row_error s e : make_row strip isoformat s = inl e → e = BadTimestamp.
Proof. unfold make_row; intros; repeat case_match; by simplify_eq. Qed.

Lemma make_rows_error states e :
  make_rows strip isoformat states = inl e → e = BadTimestamp.
Proof.
  induction states as [|s rest IH]; simpl; [done|].
  destruct (make_row strip isoformat s) eqn:Hs.
  - intros; simplify_eq. by eapply make_row_error.
  - destruct (make_rows strip isoformat rest); intros; simplify_eq. by apply IH.
Qed.

Lemma make_rows_fails states s e :
  s ∈ states → make_row strip isoformat s = inl e →
  ∃ e', make_rows strip isoformat states = inl e'.
Proof.
  induction 1 as [s rest|s s' rest Hin IH]; intros Hs; simpl.
  - rewrite Hs; eauto.
  - destruct (make_row strip isoformat s'); [eauto|].
    destruct (IH Hs) as [e' ->]; eauto.
Qed.

Lemma df_head_sublist n rows : df_head n rows `sublist_of` rows.
Proof. unfold df_head; case_match; apply sublist_take. Qed.

Lemma df_head_length n rows : 0 ≤ n → (length (df_head n rows) ≤ Z.to_nat n)%nat.
Proof.
  intros Hn; unfold df_head.
  destruct (Z.leb_spec 0 n); [|lia]. rewrite length_take; lia.
Qed.

Lemma keep_matching_rows column value pat df df' :
  keep_matching pattern column value pat df = inr df' →
  has_columns df' = true ∧
  ∃ found, pattern pat = Some found ∧
    frame_rows df' = List.filter (λ r, match value r with
                                       | Some x => found x
                                       | None => false
                                       end) (frame_rows df).
Proof. unfold keep_matching; intros; repeat case_match; simplify_eq/=; eauto. Qed.

Lemma filter_sublist {A} (P : A → bool) (l : list A) :
  List.filter P l `sublist_of` l.
Proof.
  induction l as [|x l IH]; simpl; [done|].
  destruct (P x); by constructor.
Qed.

(** The two filters in turn: the frame that is left keeps only rows of
    the feed, each passing the filters that were given. *)
Lemma filters_keep cf cs rows df1 df2 :
  (if nonempty cf
   then keep_matching pattern "origin_country" origin_country cf (data_frame rows)
   else inr (data_frame rows)) = inr df1 →
  (if nonempty cs
   then keep_matching pattern "callsign" (λ r, Some (callsign r)) cs df1
   else inr df1) = inr df2 →
  frame_rows df2 `sublist_of` rows ∧ Forall (passes pattern cf cs) (frame_rows df2).
Proof.
  intros H1 H2.
  assert (frame_rows df1 `sublist_of` rows ∧
          (nonempty cf = true →
           ∃ found, pattern cf = Some found ∧
             Forall (λ r, ∃ x, origin_country r = Some x ∧ found x = true)
                    (frame_rows df1))) as [Hs1 Hp1].
  { destruct (nonempty cf).
    - apply keep_matching_rows in H1 as (_ & found & Hf & ->).
      split; [apply filter_sublist|]. intros _. exists found. split; [done|].
      apply Forall_forall. intros r Hr. apply list_elem_of_In, filter_In in Hr as [_ Hr].
      destruct (origin_country r); [eauto|done].
    - simplify_eq/=. done. }
  assert (frame_rows df2 `sublist_of` frame_rows df1 ∧
          (nonempty cs = true →
           ∃ found, pattern cs = Some found ∧
             Forall (λ r, found (callsign r) = true) (frame_rows df2)))
    as [Hs2 Hp2].
  { destruct (nonempty cs).
    - apply keep_matching_rows in H2 as (_ & found & Hf & ->).
      split; [apply filter_sublist|]. intros _. exists found. split; [done|].
      apply Forall_forall. intros r Hr. by apply list_elem_of_In, filter_In in Hr as [_ Hr].
    - simplify_eq/=. done. }
  split; [by etrans|].
  apply Forall_forall. intros r Hr. split.
  - intros Hcf. destruct (Hp1 Hcf) as (found & Hf & Hall).
    rewrite Forall_forall in Hall.
    destruct (Hall r) as (x & Hx & Hfx); [|by eauto].
    eapply elem_of_sublist; eauto.
  - intros Hcs. destruct (Hp2 Hcs) as (found & Hf & Hall).
    rewrite Forall_forall in Hall. eauto.
Qed.

(** X16.  A snapshot shows only state vectors of the feed, in the feed's
    order, each passing every filter that was given; the count in the
    status is the number of rows shown, and a limit that is not negative
    bounds it. *)
Theorem snapshot_rows_pass_filters fetched cf cs limit n out :
  fetch_live_flights strip isoformat pattern int_of_str fetched cf cs limit
    = (Snapshot n, out) →
  ∃ states rows m,
    fetched = Some (Some states) ∧
    make_rows strip isoformat states = inr rows ∧
    py_int int_of_str limit = inr m ∧
    n = length out ∧
    out `sublist_of` rows ∧
    Forall (passes pattern cf cs) out ∧
    (0 ≤ m → (length out ≤ Z.to_nat m)%nat).
Proof.
  unfold fetch_live_flights. intros H.
  destruct fetched as [data|]; [|done].
  destruct (make_rows strip isoformat (default [] data)) as [|rows] eqn:Hrows; [done|].
  cbv zeta in H.
  destruct (if nonempty cf then _ else _) as [|df1] eqn:H1 in H; [done|].
  destruct (if nonempty cs then _ else _) as [|df2] eqn:H2 in H; [done|].
  destruct (filters_keep _ _ _ _ _ H1 H2) as [Hsub Hall].
  destruct (frame_rows df2) as [|r rest] eqn:Hdf; [done|].
  destruct (py_int int_of_str limit) as [|m] eqn:Hm; [done|].
  simplify_eq.
  destruct data as [states|]; simpl in Hrows.
  - exists states, rows, m. split_and!; try done.
    + etrans; [apply df_head_sublist|done].
    + apply Forall_forall. intros r' Hr'. rewrite Forall_forall in Hall.
      apply Hall. eapply elem_of_sublist; [done|apply df_head_sublist].
    + apply df_head_length.
  - simplify_eq/=. destruct (nonempty cf), (nonempty cs); by simplify_eq/=.
Qed.

(** X17.  When the feed has no state vector (an empty, null or missing
    ["states"]), the frame has no column: a call with a filter ends in the
    error of the missing column, and only a call without filters reports
    that no flight matched. *)
Theorem no_states_with_filter data cf cs limit :
  default [] data = [] →
  fetch_live_flights strip isoformat pattern int_of_str (Some data) cf cs limit =
    if nonempty cf then (LiveError (KeyError "origin_country"), [])
    else if nonempty cs then (LiveError (KeyError "callsign"), [])
    else (NoMatch, []).
Proof.
  intros Hd. unfold fetch_live_flights. rewrite Hd. simpl.
  by destruct (nonempty cf), (nonempty cs).
Qed.

(** X18.  One state vector whose timestamp cannot be converted makes the
    whole call an error, whatever the other state vectors, the filters and
    the limit are. *)
Theorem bad_timestamp_fails_snapshot states s t cf cs limit :
  s ∈ states →
  s_time_position s = Some t →
  t ≠ 0 →
  isoformat t = None →
  fetch_live_flights strip isoformat pattern int_of_str (Some (Some states)) cf cs limit
    = (LiveError BadTimestamp, []).
Proof.
  intros Hin Ht Hnz Hiso.
  assert (make_row strip isoformat s = inl BadTimestamp) as Hs.
  { unfold make_row. rewrite Ht, Hiso.
    by destruct (Z.eqb_spec t 0). }
  destruct (make_rows_fails _ _ _ Hin Hs) as [e He].
  pose proof (make_rows_error _ _ He) as ->.
  unfold fetch_live_flights. simpl. by rewrite He.
Qed.

(** X19.  The limit is read only when some row is left: a call that reports
    that no flight matched returns no row and reports the same for every
    other limit, also one that is not a number. *)
Theorem no_match_ignores_limit fetched cf cs limit out :
  fetch_live_flights strip isoformat pattern int_of_str fetched cf cs limit
    = (NoMatch, out) →
  out = [] ∧
  ∀ limit', fetch_live_flights strip isoformat pattern int_of_str fetched cf cs limit'
            = (NoMatch, []).
Proof.
  unfold fetch_live_flights. intros H.
  destruct fetched as [data|]; [|done].
  destruct (make_rows strip isoformat (default [] data)) as [|rows]; [done|].
  cbv zeta in *.
  destruct (if nonempty cf then _ else _) as [|df1]; [done|].
  destruct (if nonempty cs then _ else _) as [|df2]; [done|].
  destruct (frame_rows df2) as [|r rest].
  - by simplify_eq.
  - by destruct (py_int int_of_str limit).
Qed.

End LiveProperties.

Lemma snapshot_rows_pass_filters_witness :
  ∃ states rows m,
    Some (Some two_states) = Some (Some states) ∧
    make_rows id any_time states = inr rows ∧
    py_int no_int (PInt 5) = inr m ∧
    1%nat = length [french_row] ∧
    [french_row] `sublist_of` rows ∧
    Forall (passes exactly "France" EmptyString) [french_row] ∧
    (0 ≤ m → (length [french_row] ≤ Z.to_nat m)%nat).
Proof.
  apply (snapshot_rows_pass_filters id any_time exactly no_int
           (Some (Some two_states)) "France" EmptyString (PInt 5)).
  reflexivity.
Defined.

Lemma no_states_with_filter_witness :
  fetch_live_flights id any_time exactly no_int (Some None)
    "France" EmptyString (PInt 5)
  = (LiveError (KeyError "origin_country"), []).
Proof.
  apply (no_states_with_filter id any_time exactly no_int None
           "France" EmptyString (PInt 5)).
  reflexivity.
Defined.

Lemma bad_timestamp_fails_snapshot_witness :
  fetch_live_flights id no_time exactly no_int (Some (Some two_states))
    EmptyString EmptyString (PInt 5)
  = (LiveError BadTimestamp, []).
Proof.
  apply (bad_timestamp_fails_snapshot id no_time exactly no_int two_states
           (a_state "AFR2" "France" 2) 2).
  - unfold two_states. apply list_elem_of_further, list_elem_of_here.
  - reflexivity.
  - lia.
  - reflexivity.
Defined.

Lemma no_match_ignores_limit_witness :
  @nil live_row = [] ∧
  ∀ limit', fetch_live_flights id any_time exactly no_int
              (Some (Some two_states)) "Spain" EmptyString limit'
            = (NoMatch, []).
Proof.
  apply (no_match_ignores_limit id any_time exactly no_int
           (Some (Some two_states)) "Spain" EmptyString PNone []).
  reflexivity.
Defined.

(** ** Interleaved calls through the view *)

Lemma book_never_oversells_witness :
  conserved (capacity (data (one_flight 42 1))) (data (one_flight 42 1))
  ∧ nonneg (data (one_flight 42 1))
  ∧ let m := run_schedule both_read_first
               (launch (one_flight 42 1)
                  (map (λ c, (book no_float c.1, c.2))
                       [(jane (PFloat 150), no_fault);
                        (jane (PFloat 150), no_fault)])) in
    conserved (capacity (data (one_flight 42 1))) (data (store m))
    ∧ nonneg (data (store m))
    ∧ ∀ k, is_Some (flights (data (store m)) !! k) →
           booked_on k (data (store m)) ≤ capacity (data (one_flight 42 1)) k.
Proof.
  assert (conserved (capacity (data (one_flight 42 1))) (data (one_flight 42 1)))
    as Hc by (by apply initial_conserved).
  assert (nonneg (data (one_flight 42 1))) as Hn by (apply one_flight_nonneg; lia).
  split; [exact Hc|]. split; [exact Hn|].
  exact (book_never_oversells no_float (capacity (data (one_flight 42 1)))
           (one_flight 42 1)
           [(jane (PFloat 150), no_fault); (jane (PFloat 150), no_fault)]
           both_read_first Hc Hn).
Defined.
